(** * Slideshow generator: segmentation of the model stream and the
      IndexedDB snapshot of a finished slideshow.

    Shallow embedding of [src/index.tsx].  The page (DOM nodes touched by the
    code), the IndexedDB object store, the registry of object URLs and a
    trace of the effects performed are threaded through a state-and-exception
    monad; [await] points are sequencing in that monad, a rejected promise
    is a raised exception.

    Conventions.
    - A caption is kept as the markup assigned to its [innerHTML].  What the
      HTML parser of the browser makes of that markup is taken from the
      browser: the markup read back from [innerHTML], the [<img>] elements
      and the elements of class [slide] found in it.
    - [console.log('no data', chunk)] is recorded without its second
      argument.
    - The fade-in animation of captions and focus handling are left out. *)

From Stdlib Require Import Ascii NArith.
From Stdlib Require QArith.
From stdpp Require Import base strings list gmap pretty.

(** ** Values of the program *)

(** [Blob] of the browser: raw bytes and a media type. *)
Record Blob := mkBlob { blob_bytes : list Byte.byte; blob_type : string }.

(** [part.inlineData] of the generation API. *)
Record InlineData := mkInlineData { data : string; mimeType : string }.

(** One [part] of [candidate.content.parts]; both members are optional in
    the API, [None] is [undefined]. *)
Record Part := mkPart { part_text : option string; inlineData : option InlineData }.

Record Content := mkContent { parts : option (list Part) }.
Record Candidate := mkCandidate { content : option Content }.
Record Chunk := mkChunk { candidates : option (list Candidate) }.

(** The async iterable returned by [generateContentStream]: the chunks it
    yields, then either normal completion or a rejection. *)
Record Stream := mkStream { chunks : list Chunk; stream_error : option string }.

(** The [src] of an [<img>]: a URL string (the code writes [data:] URLs), or
    an object URL handed out by [URL.createObjectURL]. *)
Inductive ImgSrc :=
| SrcUrl (url : string)
| SrcObject (id : nat).

Record Img := mkImg { src : ImgSrc }.

(** A child of [#slideshow] as the code builds it: [div.slide] with its
    ratio class, optionally the class [question-slide], the image appended
    first, if any, and the caption with the markup assigned to its
    [innerHTML]. *)
Record SlideEl := mkSlideEl {
  question_slide : bool;
  ratio_class : string;
  caption_innerHTML : string;
  slide_img : option Img }.

(** What the selectors of the code show of an element of class [slide]:
    whether it carries the class [question-slide], the [innerHTML] of its
    first descendant of class [slide-caption] and the [src] of its first
    descendant [<img>]; [None] where there is no such descendant. *)
Record SlideView := mkSlideView {
  view_question : bool;
  view_caption : option string;
  view_img : option ImgSrc }.

(** What is found in the [imageBlob] member of a stored slide: [null], a
    [Blob], or some other truthy value (a record written by something else
    than [saveSlideshowToStorage]) on which [URL.createObjectURL] throws. *)
Inductive StoredBlob :=
| BlobNull
| BlobOk (b : Blob)
| BlobJunk.

(** [interface SavedSlide] *)
Record SavedSlide := mkSavedSlide {
  isQuestion : bool;
  text : string;
  imageBlob : StoredBlob }.

(** [interface SavedSlideshow] *)
Record SavedSlideshow := mkSavedSlideshow {
  question : string;
  theme : string;
  ratio : string;
  colorStyle : string;
  slides : list SavedSlide }.

(** JavaScript truthiness of a string. *)
Definition truthy (s : string) : bool := negb (String.eqb s "").

(** [a || b] on strings. *)
Definition or_else (a b : string) : string := if truthy a then a else b.

(** ** The page *)

(** A selector list ([<ul>]): the [data-value] of each item and whether it
    carries the class [selected]. *)
Definition Menu := list (string * bool).

Record Page := mkPage {
  selectedTheme : string;
  selectedRatio : string;
  selectedColorStyle : string;
  appContainer_className : string;
  themeSelector : Menu;
  ratioSelector : Menu;
  colorSelector : Menu;
  userInput_value : string;
  inputs_disabled : bool;          (* userInput.disabled, generateBtn.disabled *)
  modelOutput : list string;       (* innerHTML of the user-turn children *)
  slideshow : list SlideEl;
  slideshow_hidden : bool;
  error_innerHTML : string;
  error_hidden : bool;
  actionsContainer_hidden : bool }.

(** ** Effects *)

Inductive Exn :=
| TypeError (msg : string)
| DBError (msg : string)
| StreamError (msg : string).

Definition exn_to_string (e : Exn) : string :=
  match e with
  | TypeError m => "TypeError: " +:+ m
  | DBError m => m
  | StreamError m => m
  end.

(** The effects recorded in the trace, in the order the code performs them. *)
Inductive Event :=
| EvDbDelete (key : string) (ok : bool)
| EvDbPut (key : string) (value : SavedSlideshow) (ok : bool)
| EvDbGet (key : string) (ok : bool)
| EvStreamOpen
| EvPart (p : Part)
| EvAddSlide (caption : string) (image : Img)
| EvAppend (s : SlideEl)
| EvConsoleLog (msg : string)
| EvConsoleError (msg : string).

(** The state: the page, the object store [slideshowStore] of [SlideshowDB],
    the outcome of the coming database requests ([true]: the request fails;
    an exhausted list means success), the object URLs of the document, the
    object URLs handed out so far in any document, and the trace. *)
Record World := mkWorld {
  page : Page;
  idb : gmap string SavedSlideshow;
  idb_faults : list bool;
  objectURLs : gmap nat Blob;
  issuedURLs : gset nat;
  trace : list Event }.

Definition Result (A : Type) : Type := Exn + A.

Definition M (A : Type) : Type := World → Result A * World.

Global Instance M_ret : MRet M := λ A (a : A) w, (inr a, w).

Global Instance M_bind : MBind M := λ A B (f : A → M B) (m : M A) w,
  match m w with
  | (inr a, w') => f a w'
  | (inl e, w') => (inl e, w')
  end.

Definition throw {A} (e : Exn) : M A := λ w, (inl e, w).

(** [try { body } catch (e) { handler }] *)
Definition try_catch {A} (body : M A) (handler : Exn → M A) : M A := λ w,
  match body w with
  | (inr a, w') => (inr a, w')
  | (inl e, w') => handler e w'
  end.

Definition get_page : M Page := λ w, (inr (page w), w).

Definition modify_page (f : Page → Page) : M unit := λ w,
  (inr tt,
   mkWorld (f (page w)) (idb w) (idb_faults w) (objectURLs w) (issuedURLs w)
     (trace w)).

Definition emit (ev : Event) : M unit := λ w,
  (inr tt,
   mkWorld (page w) (idb w) (idb_faults w) (objectURLs w) (issuedURLs w)
     (trace w ++ [ev])).

(** for-of over a list with a loop-carried value. *)
Fixpoint for_of {A S} (l : list A) (body : A → S → M S) (s : S) : M S :=
  match l with
  | [] => mret s
  | x :: l' => s' ← body x s; for_of l' body s'
  end.

(** [Promise.all(l.map(f))]: the results in order, or the first rejection. *)
Fixpoint promise_all_map {A B} (f : A → M B) (l : list A) : M (list B) :=
  match l with
  | [] => mret []
  | x :: l' => y ← f x; ys ← promise_all_map f l'; mret (y :: ys)
  end.

(** Setters of the page members the code assigns. *)
Definition set_settings (t r c : string) (p : Page) : Page :=
  mkPage t r c (appContainer_className p) (themeSelector p) (ratioSelector p)
    (colorSelector p) (userInput_value p) (inputs_disabled p) (modelOutput p)
    (slideshow p) (slideshow_hidden p) (error_innerHTML p) (error_hidden p)
    (actionsContainer_hidden p).

Definition set_className (c : string) (p : Page) : Page :=
  mkPage (selectedTheme p) (selectedRatio p) (selectedColorStyle p) c
    (themeSelector p) (ratioSelector p) (colorSelector p) (userInput_value p)
    (inputs_disabled p) (modelOutput p) (slideshow p) (slideshow_hidden p)
    (error_innerHTML p) (error_hidden p) (actionsContainer_hidden p).

Definition set_menus (t r c : Menu) (p : Page) : Page :=
  mkPage (selectedTheme p) (selectedRatio p) (selectedColorStyle p)
    (appContainer_className p) t r c (userInput_value p) (inputs_disabled p)
    (modelOutput p) (slideshow p) (slideshow_hidden p) (error_innerHTML p)
    (error_hidden p) (actionsContainer_hidden p).

Definition set_input (v : string) (d : bool) (p : Page) : Page :=
  mkPage (selectedTheme p) (selectedRatio p) (selectedColorStyle p)
    (appContainer_className p) (themeSelector p) (ratioSelector p)
    (colorSelector p) v d (modelOutput p) (slideshow p) (slideshow_hidden p)
    (error_innerHTML p) (error_hidden p) (actionsContainer_hidden p).

Definition set_modelOutput (o : list string) (p : Page) : Page :=
  mkPage (selectedTheme p) (selectedRatio p) (selectedColorStyle p)
    (appContainer_className p) (themeSelector p) (ratioSelector p)
    (colorSelector p) (userInput_value p) (inputs_disabled p) o (slideshow p)
    (slideshow_hidden p) (error_innerHTML p) (error_hidden p)
    (actionsContainer_hidden p).

Definition set_slideshow (s : list SlideEl) (h : bool) (p : Page) : Page :=
  mkPage (selectedTheme p) (selectedRatio p) (selectedColorStyle p)
    (appContainer_className p) (themeSelector p) (ratioSelector p)
    (colorSelector p) (userInput_value p) (inputs_disabled p) (modelOutput p)
    s h (error_innerHTML p) (error_hidden p) (actionsContainer_hidden p).

Definition set_error (html : string) (h : bool) (p : Page) : Page :=
  mkPage (selectedTheme p) (selectedRatio p) (selectedColorStyle p)
    (appContainer_className p) (themeSelector p) (ratioSelector p)
    (colorSelector p) (userInput_value p) (inputs_disabled p) (modelOutput p)
    (slideshow p) (slideshow_hidden p) html h (actionsContainer_hidden p).

Definition set_actions_hidden (h : bool) (p : Page) : Page :=
  mkPage (selectedTheme p) (selectedRatio p) (selectedColorStyle p)
    (appContainer_className p) (themeSelector p) (ratioSelector p)
    (colorSelector p) (userInput_value p) (inputs_disabled p) (modelOutput p)
    (slideshow p) (slideshow_hidden p) (error_innerHTML p) (error_hidden p) h.

(** ** Collaborators outside the repository *)

(** What the code takes from the browser and from its two libraries:
    [marked.parse], [fetch(url).then(r => r.blob())] on a URL string
    ([None]: the promise rejects), and the message extraction of
    [parseError], which rests on a regular expression and [JSON.parse].
    Of the HTML parser, what it makes of markup assigned to the [innerHTML]
    of a caption: the markup read back from [innerHTML], the [<img>]
    elements in the caption and what the elements of class [slide] in the
    caption show, both in document order. *)
Class Browser := {
  marked_parse : string → string;
  fetch_url : string → option Blob;
  parseError : string → string;
  inner_html : string → string;
  inner_imgs : string → list Img;
  inner_slides : string → list SlideView }.

(** ** IndexedDB helpers *)

Definition DB_NAME := "SlideshowDB".
Definition STORE_NAME := "slideshowStore".
Definition SLIDESHOW_KEY := "currentSlideshow".

(** Outcome of the next request: [openDB] or the transaction may fail. *)
Definition next_fault (w : World) : bool := default false (head (idb_faults w)).

Definition saveDataToDB (key : string) (value : SavedSlideshow) : M unit := λ w,
  if next_fault w then
    (inl (DBError "put failed"),
     mkWorld (page w) (idb w) (tail (idb_faults w)) (objectURLs w) (issuedURLs w)
       (trace w ++ [EvDbPut key value false]))
  else
    (inr tt,
     mkWorld (page w) (<[key := value]> (idb w)) (tail (idb_faults w))
       (objectURLs w) (issuedURLs w) (trace w ++ [EvDbPut key value true])).

Definition loadDataFromDB (key : string) : M (option SavedSlideshow) := λ w,
  if next_fault w then
    (inl (DBError "get failed"),
     mkWorld (page w) (idb w) (tail (idb_faults w)) (objectURLs w) (issuedURLs w)
       (trace w ++ [EvDbGet key false]))
  else
    (inr (idb w !! key),
     mkWorld (page w) (idb w) (tail (idb_faults w)) (objectURLs w) (issuedURLs w)
       (trace w ++ [EvDbGet key true])).

Definition clearDataFromDB (key : string) : M unit := λ w,
  if next_fault w then
    (inl (DBError "delete failed"),
     mkWorld (page w) (idb w) (tail (idb_faults w)) (objectURLs w) (issuedURLs w)
       (trace w ++ [EvDbDelete key false]))
  else
    (inr tt,
     mkWorld (page w) (delete key (idb w)) (tail (idb_faults w))
       (objectURLs w) (issuedURLs w) (trace w ++ [EvDbDelete key true])).

(** [URL.createObjectURL]: a URL that is new, in this document and in any
    earlier one; a value that is not a [Blob] is refused. *)
Definition createObjectURL (b : StoredBlob) : M nat := λ w,
  match b with
  | BlobOk blob =>
      let id := fresh (dom (objectURLs w) ∪ issuedURLs w) in
      (inr id,
       mkWorld (page w) (idb w) (idb_faults w) (<[id := blob]> (objectURLs w))
         ({[id]} ∪ issuedURLs w) (trace w))
  | _ => (inl (TypeError "createObjectURL: Overload resolution failed"), w)
  end.

Section Program.
Context `{Browser}.

(** [fetch] of what an [<img>] points to. *)
Definition dataUrlToBlob (dataUrl : ImgSrc) : M Blob := λ w,
  let r := match dataUrl with
           | SrcUrl u => fetch_url u
           | SrcObject id => objectURLs w !! id
           end in
  match r with
  | Some b => (inr b, w)
  | None => (inl (TypeError "Failed to fetch"), w)
  end.

Definition getSelectedRatio (p : Page) : string := selectedRatio p.

Definition append_slide (s : SlideEl) : M unit :=
  modify_page (λ p, set_slideshow (slideshow p ++ [s]) (slideshow_hidden p) p);;
  emit (EvAppend s).

Definition addSlide (text : string) (image : Img) : M unit :=
  emit (EvAddSlide text image);;
  p ← get_page;
  append_slide (mkSlideEl false (getSelectedRatio p) (marked_parse text) (Some image)).

(** The accumulator of [generate]: [let text = ''; let img = null]. *)
Definition Acc : Type := string * option Img.

Definition no_data (acc : Acc) : M Acc :=
  emit (EvConsoleLog "no data");; mret acc.

(** Body of the innermost loop of [generate]. *)
Definition generate_part (part : Part) (acc : Acc) : M Acc :=
  emit (EvPart part);;
  acc1 ← (if truthy (default "" (part_text part)) then
            mret (acc.1 +:+ default "" (part_text part), acc.2)
          else
            try_catch
              (match inlineData part with
               | Some d =>
                   mret (acc.1, Some (mkImg (SrcUrl ("data:image/png;base64," +:+ data d))))
               | None => no_data acc
               end)
              (λ _, no_data acc));
  match acc1.2 with
  | Some img =>
      if truthy acc1.1 then addSlide acc1.1 img;; mret ("", None)
      else mret acc1
  | None => mret acc1
  end.

Definition generate_candidate (candidate : Candidate) (acc : Acc) : M Acc :=
  match content candidate with
  | None => throw (TypeError "candidate.content is undefined")
  | Some c => for_of (default [] (parts c)) generate_part acc
  end.

Definition generate_chunk (chunk : Chunk) (acc : Acc) : M Acc :=
  match candidates chunk with
  | None => throw (TypeError "chunk.candidates is not iterable")
  | Some cs => for_of cs generate_candidate acc
  end.

(** [for await (const chunk of result)] *)
Definition generate_stream (result : Stream) (acc : Acc) : M Acc :=
  acc' ← for_of (chunks result) generate_chunk acc;
  match stream_error result with
  | Some e => throw (StreamError e)
  | None => mret acc'
  end.

(** The flush after the loop: [if (img) { await addSlide(text, img); text = '' }] *)
Definition generate_flush (acc : Acc) : M Acc :=
  match acc.2 with
  | Some img => addSlide acc.1 img;; mret ("", acc.2)
  | None => mret acc
  end.

(** [slide.querySelectorAll('img')] on a child of [#slideshow]: its image,
    which precedes the caption, then the images inside the caption. *)
Definition slide_images (slide : SlideEl) : list Img :=
  option_list (slide_img slide) ++ inner_imgs (caption_innerHTML slide).

(** What the selectors show of a child of [#slideshow].  Its caption is its
    first descendant of class [slide-caption]: only the image comes before
    it. *)
Definition slide_view (slide : SlideEl) : SlideView :=
  mkSlideView (question_slide slide)
    (Some (inner_html (caption_innerHTML slide)))
    (src <$> head (slide_images slide)).

(** [document.querySelectorAll('#slideshow .slide')]: in document order,
    each child of [#slideshow] followed by the elements of class [slide]
    inside its caption. *)
Definition slide_elements (l : list SlideEl) : list SlideView :=
  l ≫= λ slide, slide_view slide :: inner_slides (caption_innerHTML slide).

Definition saveSlideshowToStorage (question : string) : M unit :=
  p ← get_page;
  let slideElements := slide_elements (slideshow p) in
  if bool_decide (List.length slideElements ≤ 1) then mret tt
  else
    try_catch
      (slides ← promise_all_map
         (λ slide,
            let isQuestion := view_question slide in
            let text := or_else (default "" (view_caption slide)) "" in
            match view_img slide with
            | Some (SrcUrl "") | None =>
                mret (mkSavedSlide isQuestion text BlobNull)
            | Some imageSrc =>
                imageBlob ← dataUrlToBlob imageSrc;
                mret (mkSavedSlide isQuestion text (BlobOk imageBlob))
            end)
         slideElements;
       p ← get_page;
       let dataToSave :=
         mkSavedSlideshow question (selectedTheme p) (selectedRatio p)
           (selectedColorStyle p) slides in
       saveDataToDB SLIDESHOW_KEY dataToSave)
      (λ e, emit (EvConsoleError "Failed to save slideshow to IndexedDB:")).

(** [generate].  [result] is what [ai.models.generateContentStream] gives
    for the prompt; a rejection of that call is a stream without chunks that
    fails.  The prompt text ([getAdditionalInstructions]) has no part in
    what follows and is not modelled.  [marked.parse] is total on strings. *)
Definition generate (message : string) (result : Stream) : M unit :=
  clearDataFromDB SLIDESHOW_KEY;;
  modify_page (λ p, set_input (userInput_value p) true p);;
  modify_page (set_modelOutput []);;
  modify_page (λ p, set_slideshow [] (slideshow_hidden p) p);;
  modify_page (set_error "" true);;
  modify_page (set_actions_hidden true);;
  try_catch
    (modify_page (λ p, set_modelOutput (modelOutput p ++ [marked_parse message]) p);;
     modify_page (λ p, set_input "" (inputs_disabled p) p);;
     p ← get_page;
     append_slide
       (mkSlideEl true (getSelectedRatio p)
          ("You asked:<br><strong>" +:+ message +:+ "</strong>") None);;
     modify_page (λ p, set_slideshow (slideshow p) false p);;
     emit EvStreamOpen;;
     acc ← generate_stream result ("", None);
     generate_flush acc;;
     p ← get_page;
     if bool_decide (1 < List.length (slideshow p)) then
       modify_page (set_actions_hidden false);;
       saveSlideshowToStorage message
     else mret tt)
    (λ e,
       let msg := parseError (exn_to_string e) in
       modify_page (set_error ("Something went wrong: " +:+ msg) false));;
  modify_page (λ p, set_input (userInput_value p) false p).

Definition updateMenuListSelection (list : Menu) (value : string) : Menu :=
  (λ item, (item.1, bool_decide (item.1 = value))) <$> list.

Definition setAppTheme (theme : string) : M unit :=
  modify_page (set_className ("app-container theme-" +:+ theme)).

(** Body of the rebuild loop of [loadSlideshowFromStorage].  The slide is
    appended before [image.src] is assigned; when [createObjectURL] throws,
    the appended slide keeps an image without source. *)
Definition restore_slide (ratioToApply : string) (slideData : SavedSlide) (_ : unit) : M unit :=
  match imageBlob slideData with
  | BlobNull =>
      append_slide
        (mkSlideEl (isQuestion slideData) ratioToApply (text slideData) None)
  | blob =>
      try_catch
        (id ← createObjectURL blob;
         append_slide
           (mkSlideEl (isQuestion slideData) ratioToApply (text slideData)
              (Some (mkImg (SrcObject id)))))
        (λ e,
           append_slide
             (mkSlideEl (isQuestion slideData) ratioToApply (text slideData)
                (Some (mkImg (SrcUrl ""))));;
           throw e)
  end.

Definition loadSlideshowFromStorage : M unit :=
  try_catch
    (savedData ← loadDataFromDB SLIDESHOW_KEY;
     match savedData with
     | None => p ← get_page; setAppTheme (selectedTheme p)
     | Some saved =>
         modify_page
           (set_settings (theme saved) (ratio saved) (or_else (colorStyle saved) "bw"));;
         setAppTheme (theme saved);;
         modify_page
           (λ p, set_menus
                   (updateMenuListSelection (themeSelector p) (theme saved))
                   (updateMenuListSelection (ratioSelector p) (ratio saved))
                   (updateMenuListSelection (colorSelector p) (selectedColorStyle p))
                   p);;
         modify_page
           (λ p, set_modelOutput (modelOutput p ++ [marked_parse (question saved)]) p);;
         modify_page (λ p, set_slideshow [] (slideshow_hidden p) p);;
         for_of (slides saved) (restore_slide (or_else (ratio saved) "1-1")) tt;;
         modify_page (λ p, set_slideshow (slideshow p) false p);;
         modify_page (set_actions_hidden false)
     end)
    (λ e,
       emit (EvConsoleError "Failed to load saved slideshow:");;
       clearDataFromDB SLIDESHOW_KEY).

(** The three selector click handlers; [value] is [target.dataset.value] of
    a clicked [<li>]. *)
Definition click_theme (value : option string) : M unit :=
  if truthy (default "" value) then
    modify_page (λ p, set_settings (default "" value) (selectedRatio p) (selectedColorStyle p) p);;
    modify_page (λ p, set_menus (updateMenuListSelection (themeSelector p) (selectedTheme p))
                        (ratioSelector p) (colorSelector p) p);;
    p ← get_page; setAppTheme (selectedTheme p)
  else mret tt.

Definition click_ratio (value : option string) : M unit :=
  if truthy (default "" value) then
    modify_page (λ p, set_settings (selectedTheme p) (default "" value) (selectedColorStyle p) p);;
    modify_page (λ p, set_menus (themeSelector p)
                        (updateMenuListSelection (ratioSelector p) (selectedRatio p))
                        (colorSelector p) p)
  else mret tt.

Definition click_color (value : option string) : M unit :=
  if truthy (default "" value) then
    modify_page (λ p, set_settings (selectedTheme p) (selectedRatio p) (default "" value) p);;
    modify_page (λ p, set_menus (themeSelector p) (ratioSelector p)
                        (updateMenuListSelection (colorSelector p) (selectedColorStyle p)) p)
  else mret tt.

End Program.

(** ** A concrete browser for running the program

    [marked.parse] is followed on one paragraph of plain text or inline
    HTML, which it wraps in [<p>]; [fetch] accepts the
    [data:image/png;base64,] URLs the program writes and decodes the payload
    (standard alphabet, optional padding), rejecting anything else;
    [parseError] falls back to its argument.  The HTML parser is followed
    on the markup the runs below use: text, elements without attributes,
    and [<img src='...'>] with an absolute URL, free of [&], between single
    quotes.  Read back, such an image has its URL between double quotes and
    a [&] of the text is written [&amp;]; no element carries a class. *)
Module SampleBrowser.

Definition b64_value (c : ascii) : option N :=
  let n := N_of_ascii c in
  if (65 <=? n)%N && (n <=? 90)%N then Some (n - 65)%N
  else if (97 <=? n)%N && (n <=? 122)%N then Some (n - 71)%N
  else if (48 <=? n)%N && (n <=? 57)%N then Some (n + 4)%N
  else if (n =? 43)%N then Some 62%N
  else if (n =? 47)%N then Some 63%N
  else None.

Fixpoint b64_values (s : string) : option (list N) :=
  match s with
  | EmptyString => Some []
  | String "=" EmptyString => Some []
  | String "=" (String "=" EmptyString) => Some []
  | String c s' => v ← b64_value c; vs ← b64_values s'; Some (v :: vs)
  end.

Definition byte_of (n : N) : Byte.byte := default Byte.x00 (Byte.of_N (n mod 256)%N).

Fixpoint b64_bytes (fuel : nat) (vs : list N) : option (list Byte.byte) :=
  match fuel, vs with
  | _, [] => Some []
  | S fuel', a :: b :: c :: d :: vs' =>
      let n := (a * 262144 + b * 4096 + c * 64 + d)%N in
      bs ← b64_bytes fuel' vs';
      Some (byte_of (n / 65536) :: byte_of (n / 256) :: byte_of n :: bs)
  | _, [a; b; c] =>
      let n := (a * 4096 + b * 64 + c)%N in
      Some [byte_of (n / 1024); byte_of (n / 4)]
  | _, [a; b] => Some [byte_of ((a * 64 + b) / 16)%N]
  | _, _ => None
  end.

Definition strip_prefix (p s : string) : option string :=
  if String.prefix p s then
    Some (String.substring (String.length p) (String.length s - String.length p) s)
  else None.

Definition fetch (url : string) : option Blob :=
  payload ← strip_prefix "data:image/png;base64," url;
  vs ← b64_values payload;
  bs ← b64_bytes (List.length vs) vs;
  Some (mkBlob bs "image/png").

Definition parse (s : string) : string :=
  if truthy s then "<p>" +:+ s +:+ "</p>" else "".

Definition dquote : string := String (ascii_of_nat 34) "".

(** The text up to the next single quote, and what follows the quote. *)
Fixpoint until_quote (s : string) : option (string * string) :=
  match s with
  | EmptyString => None
  | String c s' =>
      if Ascii.eqb c "'" then Some ("", s')
      else r ← until_quote s'; Some (String c r.1, r.2)
  end.

(** One pass over markup: the markup as read back, and the images met. *)
Fixpoint scan (fuel : nat) (s : string) : string * list Img :=
  match fuel with
  | 0 => (s, [])
  | S fuel' =>
      match strip_prefix "<img src='" s ≫= until_quote with
      | Some (u, rest) =>
          let r := scan fuel' rest in
          ("<img src=" +:+ dquote +:+ u +:+ dquote +:+ r.1, mkImg (SrcUrl u) :: r.2)
      | None =>
          match s with
          | EmptyString => ("", [])
          | String c s' =>
              let r := scan fuel' s' in
              ((if Ascii.eqb c "&" && negb (String.prefix "amp;" s')
                then "&amp;" else String c "") +:+ r.1, r.2)
          end
      end
  end.

Definition read_back (s : string) : string := (scan (String.length s) s).1.

Definition images_in (s : string) : list Img := (scan (String.length s) s).2.

#[export] Instance browser : Browser :=
  {| marked_parse := parse; fetch_url := fetch; parseError := λ s, s;
     inner_html := read_back; inner_imgs := images_in; inner_slides := λ _, [] |}.

(** The page as the document is loaded: the initial values of the three
    module variables, three selectors, nothing generated yet. *)
Definition page0 : Page :=
  mkPage "cats" "1-1" "bw" "app-container"
    [("cats", true); ("robots", false)]
    [("1-1", true); ("16-9", false)]
    [("bw", true); ("vibrant", false)]
    "" false [] [] true "" true true.

Definition world0 : World := mkWorld page0 ∅ [] ∅ ∅ [].

End SampleBrowser.

(** ** Observations on runs *)

(** The calls [addSlide(text, img)] recorded in a trace, in order. *)
Definition addSlide_calls (tr : list Event) : list (string * Img) :=
  omap (λ ev, match ev with EvAddSlide c i => Some (c, i) | _ => None end) tr.

(** The slides appended to [#slideshow] recorded in a trace, in order. *)
Definition appended (tr : list Event) : list SlideEl :=
  omap (λ ev, match ev with EvAppend s => Some s | _ => None end) tr.

(** The events a computation adds to the trace of the world it starts in. *)
Definition events_of {A} (m : M A) (w : World) : list Event :=
  drop (List.length (trace w)) (trace (m w).2).

(** The world after the events [evs] were performed, when these only log
    and append slides. *)
Definition scribe (evs : list Event) (w : World) : World :=
  mkWorld
    (set_slideshow (slideshow (page w) ++ appended evs)
       (slideshow_hidden (page w)) (page w))
    (idb w) (idb_faults w) (objectURLs w) (issuedURLs w) (trace w ++ evs).

(** The image element [generate] builds from an inline payload. *)
Definition img_of (d : InlineData) : Img :=
  mkImg (SrcUrl ("data:image/png;base64," +:+ data d)).

(** The accumulator after the first [if] of the loop body. *)
Definition absorb (part : Part) (acc : Acc) : Acc :=
  if truthy (default "" (part_text part)) then
    (acc.1 +:+ default "" (part_text part), acc.2)
  else match inlineData part with
       | Some d => (acc.1, Some (img_of d))
       | None => acc
       end.

(** The test [text && img] of the loop body. *)
Definition completes (acc : Acc) : option (string * Img) :=
  match acc.2 with
  | Some img => if truthy acc.1 then Some (acc.1, img) else None
  | None => None
  end.

(** A part with neither text nor inline data. *)
Definition unrecognized (part : Part) : bool :=
  negb (truthy (default "" (part_text part))) && bool_decide (inlineData part = None).

Section Segmenter.
Context `{Browser}.

Definition answer_slide (r : string) (c : string * Img) : SlideEl :=
  mkSlideEl false r (marked_parse c.1) (Some c.2).

Definition emission (r : string) (c : string * Img) : list Event :=
  [EvAddSlide c.1 c.2; EvAppend (answer_slide r c)].

Definition part_acc (part : Part) (acc : Acc) : Acc :=
  match completes (absorb part acc) with
  | Some _ => ("", None)
  | None => absorb part acc
  end.

Definition part_events (r : string) (part : Part) (acc : Acc) : list Event :=
  EvPart part
  :: (if unrecognized part then [EvConsoleLog "no data"] else [])
  ++ match completes (absorb part acc) with
     | Some c => emission r c
     | None => []
     end.

Fixpoint parts_acc (ps : list Part) (acc : Acc) : Acc :=
  match ps with
  | [] => acc
  | p :: ps' => parts_acc ps' (part_acc p acc)
  end.

Fixpoint parts_events (r : string) (ps : list Part) (acc : Acc) : list Event :=
  match ps with
  | [] => []
  | p :: ps' => part_events r p acc ++ parts_events r ps' (part_acc p acc)
  end.

End Segmenter.

(** ** Streams as part sequences *)

(** The parts the loops of [generate] reach in a list of candidates, and
    whether the list was walked to its end ([false]: a candidate without
    [content] made [candidate.content.parts] throw). *)
Fixpoint candidates_run (cs : list Candidate) : list Part * bool :=
  match cs with
  | [] => ([], true)
  | c :: cs' =>
      match content c with
      | None => ([], false)
      | Some ct =>
          (default [] (parts ct) ++ (candidates_run cs').1, (candidates_run cs').2)
      end
  end.

Fixpoint chunks_run (chs : list Chunk) : list Part * bool :=
  match chs with
  | [] => ([], true)
  | ch :: chs' =>
      match candidates ch with
      | None => ([], false)
      | Some cs =>
          if (candidates_run cs).2 then
            ((candidates_run cs).1 ++ (chunks_run chs').1, (chunks_run chs').2)
          else ((candidates_run cs).1, false)
      end
  end.

(** The parts consumed from a stream, in order. *)
Definition stream_parts (s : Stream) : list Part := (chunks_run (chunks s)).1.

(** The stream is iterated to its end without an exception. *)
Definition stream_ok (s : Stream) : bool :=
  (chunks_run (chunks s)).2 && bool_decide (stream_error s = None).

(** A stream that delivers the given parts in one chunk and completes. *)
Definition one_chunk (ps : list Part) : Stream :=
  mkStream [mkChunk (Some [mkCandidate (Some (mkContent (Some ps)))])] None.

Section SegmenterRuns.
Context `{Browser}.

Definition flush_events (r : string) (acc : Acc) : list Event :=
  match acc.2 with
  | Some img => emission r (acc.1, img)
  | None => []
  end.

Definition flush_acc (acc : Acc) : Acc :=
  match acc.2 with
  | Some img => ("", acc.2)
  | None => acc
  end.

(** The segmenter part of [generate]: the loop over the stream, then the
    flush. *)
Definition segmenter (result : Stream) : M Acc :=
  acc ← generate_stream result ("", None); generate_flush acc.

(** The events of a whole stream followed by the flush. *)
Definition segmenter_events (r : string) (ps : list Part) : list Event :=
  parts_events r ps ("", None) ++ flush_events r (parts_acc ps ("", None)).

End SegmenterRuns.

(** ** The segmenter as the specification words it *)

(** A fragment of the stream: text, or an image payload. *)
Inductive Fragment :=
| Text (value : string)
| Image (payload : InlineData).

(** How a fragment reaches the code: as a part carrying one of the two
    members. *)
Definition part_of (f : Fragment) : Part :=
  match f with
  | Text v => mkPart (Some v) None
  | Image d => mkPart None (Some d)
  end.

(** Written after section 4.1 of the specification, not after the code: an
    accumulator with a pending caption and a pending image, [consume]
    emitting at most one slide, [flushRemainder] at most one trailing
    slide. *)
Module SegmenterSpec.

Inductive Role := Question | Answer.

Record Slide := mkSlide {
  role : Role;
  caption : string;
  image : option InlineData }.

Record State := mkState {
  pendingCaption : string;
  pendingImage : option InlineData }.

Definition empty : State := mkState "" None.

Definition consume (st : State) (f : Fragment) : State * option Slide :=
  let st' :=
    match f with
    | Text v => mkState (pendingCaption st +:+ v) (pendingImage st)
    | Image d => mkState (pendingCaption st) (Some d)
    end in
  match pendingImage st' with
  | Some d =>
      if bool_decide (pendingCaption st' ≠ "")
      then (empty, Some (mkSlide Answer (pendingCaption st') (Some d)))
      else (st', None)
  | None => (st', None)
  end.

Definition flushRemainder (st : State) : option Slide :=
  match pendingImage st with
  | Some d =>
      if bool_decide (pendingCaption st = "")
      then Some (mkSlide Answer "" (Some d))
      else None
  | None => None
  end.

(** The state after a fragment sequence and the slides completed on the
    way, in order. *)
Fixpoint run (st : State) (fs : list Fragment) : State * list Slide :=
  match fs with
  | [] => (st, [])
  | f :: fs' =>
      let r := run (consume st f).1 fs' in
      (r.1, option_list (consume st f).2 ++ r.2)
  end.

Definition completed (fs : list Fragment) : list Slide := (run empty fs).2.
Definition remainder (fs : list Fragment) : State := (run empty fs).1.
Definition trailing (fs : list Fragment) : list Slide :=
  option_list (flushRemainder (remainder fs)).

(** What a slide of the specification looks like as arguments of
    [addSlide]. *)
Definition as_call (s : Slide) : string * option Img :=
  (caption s, img_of <$> image s).

End SegmenterSpec.

(** An [addSlide] call with its image made optional, to compare with
    [SegmenterSpec.as_call]. *)
Definition call_shape (c : string * Img) : string * option Img := (c.1, Some c.2).

(** The accumulator of the code that stands for a state of the
    specification. *)
Definition acc_of (st : SegmenterSpec.State) : Acc :=
  (SegmenterSpec.pendingCaption st, img_of <$> SegmenterSpec.pendingImage st).

(** One (caption, image) pair as it arrives: text first or image first. *)
Definition pair_fragments (g : bool * string * InlineData) : list Fragment :=
  if g.1.1 then [Text g.1.2; Image g.2] else [Image g.2; Text g.1.2].

(** ** Saving *)

(** The world with its page changed. *)
Definition on_page (f : Page → Page) (w : World) : World :=
  mkWorld (f (page w)) (idb w) (idb_faults w) (objectURLs w) (issuedURLs w)
    (trace w).

(** The world with events added to its trace. *)
Definition logged (evs : list Event) (w : World) : World :=
  mkWorld (page w) (idb w) (idb_faults w) (objectURLs w) (issuedURLs w)
    (trace w ++ evs).

(** The world once a database request was answered. *)
Definition answered (store : gmap string SavedSlideshow) (ev : Event) (w : World) : World :=
  mkWorld (page w) store (tail (idb_faults w)) (objectURLs w) (issuedURLs w)
    (trace w ++ [ev]).

Section Saving.
Context `{Browser}.

(** What an image source resolves to when fetched. *)
Definition resolve (w : World) (s : ImgSrc) : option Blob :=
  match s with
  | SrcUrl u => fetch_url u
  | SrcObject id => objectURLs w !! id
  end.

(** The stored form of one element of class [slide], when the first image
    in it resolves. *)
Definition encode_slide (w : World) (slide : SlideView) : option SavedSlide :=
  match view_img slide with
  | Some (SrcUrl "") | None =>
      Some (mkSavedSlide (view_question slide)
              (or_else (default "" (view_caption slide)) "") BlobNull)
  | Some imageSrc =>
      b ← resolve w imageSrc;
      Some (mkSavedSlide (view_question slide)
              (or_else (default "" (view_caption slide)) "") (BlobOk b))
  end.

Fixpoint encode_slides (w : World) (l : list SlideView) : option (list SavedSlide) :=
  match l with
  | [] => Some []
  | s :: l' => x ← encode_slide w s; xs ← encode_slides w l'; Some (x :: xs)
  end.

(** The record [saveSlideshowToStorage] builds. *)
Definition snapshot (question : string) (w : World) (saved : list SavedSlide) : SavedSlideshow :=
  mkSavedSlideshow question (selectedTheme (page w)) (selectedRatio (page w))
    (selectedColorStyle (page w)) saved.

Definition save_failed : Event := EvConsoleError "Failed to save slideshow to IndexedDB:".

(** The world [saveSlideshowToStorage] leaves. *)
Definition saved_world (question : string) (w : World) : World :=
  if bool_decide (List.length (slide_elements (slideshow (page w))) ≤ 1) then w
  else match encode_slides w (slide_elements (slideshow (page w))) with
       | Some saved =>
           if next_fault w then
             logged [save_failed]
               (answered (idb w) (EvDbPut SLIDESHOW_KEY (snapshot question w saved) false) w)
           else
             answered (<[SLIDESHOW_KEY := snapshot question w saved]> (idb w))
               (EvDbPut SLIDESHOW_KEY (snapshot question w saved) true) w
       | None => logged [save_failed] w
       end.

End Saving.

(** ** A whole generation *)

Section Generation.
Context `{Browser}.

Definition question_el (message : string) (w : World) : SlideEl :=
  mkSlideEl true (selectedRatio (page w))
    ("You asked:<br><strong>" +:+ message +:+ "</strong>") None.

(** The world when the stream is opened: the store cleared, the page reset,
    the question slide in place. *)
Definition started (message : string) (w : World) : World :=
  mkWorld
    (set_slideshow [question_el message w] false
       (set_input "" true
          (set_modelOutput [marked_parse message]
             (set_actions_hidden true (set_error "" true (page w))))))
    (delete SLIDESHOW_KEY (idb w)) (tail (idb_faults w)) (objectURLs w)
    (issuedURLs w)
    (trace w ++ [EvDbDelete SLIDESHOW_KEY true; EvAppend (question_el message w); EvStreamOpen]).

Definition enable_inputs (p : Page) : Page := set_input (userInput_value p) false p.

Definition show_error (e : Exn) : Page → Page :=
  set_error ("Something went wrong: " +:+ parseError (exn_to_string e)) false.

(** What follows the flush: the actions are shown and the slideshow saved
    when there is more than the question slide. *)
Definition finish (message : string) (w : World) : World :=
  if bool_decide (1 < List.length (slideshow (page w))) then
    saved_world message (on_page (set_actions_hidden false) w)
  else w.

End Generation.

(** ** The trace of a generation and the store *)

(** The effect of a recorded event on the object store. *)
Definition apply_event (store : gmap string SavedSlideshow) (ev : Event) :
    gmap string SavedSlideshow :=
  match ev with
  | EvDbDelete k true => delete k store
  | EvDbPut k v true => <[k := v]> store
  | _ => store
  end.

(** The object store after the events of a trace (or of a prefix of it,
    when the run is cut short). *)
Definition store_after (store : gmap string SavedSlideshow) (evs : list Event) :
    gmap string SavedSlideshow :=
  foldl apply_event store evs.

Definition is_put (ev : Event) : bool :=
  match ev with EvDbPut _ _ _ => true | _ => false end.

Definition is_put_done (ev : Event) : bool :=
  match ev with EvDbPut _ _ true => true | _ => false end.

Definition is_delete (ev : Event) : bool :=
  match ev with EvDbDelete _ _ => true | _ => false end.

Definition is_get (ev : Event) : bool :=
  match ev with EvDbGet _ _ => true | _ => false end.

(** [saveDataToDB] was called. *)
Definition put_invoked (evs : list Event) : bool := existsb is_put evs.

(** A put went through. *)
Definition put_succeeded (evs : list Event) : bool := existsb is_put_done evs.

(** Events that do not touch the database. *)
Definition db_silent (ev : Event) : bool :=
  match ev with
  | EvDbDelete _ _ | EvDbPut _ _ _ | EvDbGet _ _ => false
  | _ => true
  end.

Section GenerationTrace.
Context `{Browser}.

Definition save_events (question : string) (w : World) : list Event :=
  if bool_decide (List.length (slide_elements (slideshow (page w))) ≤ 1) then []
  else match encode_slides w (slide_elements (slideshow (page w))) with
       | Some saved =>
           if next_fault w then
             [EvDbPut SLIDESHOW_KEY (snapshot question w saved) false; save_failed]
           else [EvDbPut SLIDESHOW_KEY (snapshot question w saved) true]
       | None => [save_failed]
       end.

Definition finish_events (message : string) (w : World) : list Event :=
  if bool_decide (1 < List.length (slideshow (page w))) then
    save_events message (on_page (set_actions_hidden false) w)
  else [].

(** The world in which the flush has been done, for a stream that
    completed. *)
Definition flushed (message : string) (s : Stream) (w : World) : World :=
  scribe (segmenter_events (selectedRatio (page w)) (stream_parts s)) (started message w).

(** The events of [generate], by cases. *)
Definition generate_events (message : string) (s : Stream) (w : World) : list Event :=
  if next_fault w then [EvDbDelete SLIDESHOW_KEY false]
  else
    [EvDbDelete SLIDESHOW_KEY true; EvAppend (question_el message w); EvStreamOpen]
    ++ (if stream_ok s then
          segmenter_events (selectedRatio (page w)) (stream_parts s)
          ++ finish_events message (flushed message s w)
        else parts_events (selectedRatio (page w)) (stream_parts s) ("", None)).

End GenerationTrace.

(** ** Restoring *)

Definition restored_el (r : string) (sd : SavedSlide) (img : option Img) : SlideEl :=
  mkSlideEl (isQuestion sd) r (text sd) img.

(** The slides the rebuild loop appends, the object URLs it leaves and
    whether it ran to its end ([false]: [createObjectURL] threw), from the
    object URLs of the document and those handed out so far. *)
Fixpoint restored (r : string) (l : list SavedSlide) (urls : gmap nat Blob)
    (issued : gset nat) : list SlideEl * gmap nat Blob * bool :=
  match l with
  | [] => ([], urls, true)
  | sd :: l' =>
      match imageBlob sd with
      | BlobNull =>
          let rest := restored r l' urls issued in
          (restored_el r sd None :: rest.1.1, rest.1.2, rest.2)
      | BlobOk b =>
          let id := fresh (dom urls ∪ issued) in
          let rest := restored r l' (<[id := b]> urls) ({[id]} ∪ issued) in
          (restored_el r sd (Some (mkImg (SrcObject id))) :: rest.1.1, rest.1.2, rest.2)
      | BlobJunk => ([restored_el r sd (Some (mkImg (SrcUrl "")))], urls, false)
      end
  end.

(** The object URLs handed out once the rebuild loop is left. *)
Fixpoint restored_issued (l : list SavedSlide) (urls : gmap nat Blob)
    (issued : gset nat) : gset nat :=
  match l with
  | [] => issued
  | sd :: l' =>
      match imageBlob sd with
      | BlobNull => restored_issued l' urls issued
      | BlobOk b =>
          let id := fresh (dom urls ∪ issued) in
          restored_issued l' (<[id := b]> urls) ({[id]} ∪ issued)
      | BlobJunk => issued
      end
  end.

Definition is_junk (sd : SavedSlide) : bool :=
  match imageBlob sd with BlobJunk => true | _ => false end.

Definition load_failed : Event := EvConsoleError "Failed to load saved slideshow:".

(** How a restore goes, decided by the next database answer and by what is
    stored. *)
Inductive Outcome :=
| GetRejected
| Missing
| Undecodable (saved : SavedSlideshow)
| Restorable (saved : SavedSlideshow).

Definition load_outcome (w : World) : Outcome :=
  if next_fault w then GetRejected
  else match idb w !! SLIDESHOW_KEY with
       | None => Missing
       | Some saved =>
           if existsb is_junk (slides saved) then Undecodable saved else Restorable saved
       end.

(** A new document over the same database: the page as loaded; the object
    URLs of the old document are revoked, and none of them is handed out
    again. *)
Definition reload (p0 : Page) (w : World) : World :=
  mkWorld p0 (idb w) (idb_faults w) ∅ (issuedURLs w) (trace w).

Section Restoring.
Context `{Browser}.

(** The page when the rebuild loop starts. *)
Definition restoring_page (saved : SavedSlideshow) (p : Page) : Page :=
  set_slideshow [] (slideshow_hidden p)
    (set_modelOutput (modelOutput p ++ [marked_parse (question saved)])
       (set_menus
          (updateMenuListSelection (themeSelector p) (theme saved))
          (updateMenuListSelection (ratioSelector p) (ratio saved))
          (updateMenuListSelection (colorSelector p) (or_else (colorStyle saved) "bw"))
          (set_className ("app-container theme-" +:+ theme saved)
             (set_settings (theme saved) (ratio saved) (or_else (colorStyle saved) "bw") p)))).

(** The world when the rebuild loop is left. *)
Definition rebuilt (saved : SavedSlideshow) (w : World) : World :=
  let out := restored (or_else (ratio saved) "1-1") (slides saved) (objectURLs w)
               (issuedURLs w) in
  mkWorld
    (set_slideshow out.1.1 (slideshow_hidden (page w)) (restoring_page saved (page w)))
    (idb w) (tail (idb_faults w)) out.1.2
    (restored_issued (slides saved) (objectURLs w) (issuedURLs w))
    (trace w ++ EvDbGet SLIDESHOW_KEY true :: (EvAppend <$> out.1.1)).

(** The handler of [loadSlideshowFromStorage] run in [w]: the message, then
    the clear. *)
Definition recovered (w : World) : Result unit * World :=
  clearDataFromDB SLIDESHOW_KEY (logged [load_failed] w).

End Restoring.

(** ** Observations on restores *)

(** How many events of a trace satisfy a test. *)
Definition count (f : Event → bool) (evs : list Event) : nat :=
  List.length (List.filter f evs).

(** The image of a slide as bytes: nothing when the slide has no image,
    otherwise what its source resolves to. *)
Definition image_blob `{Browser} (w : World) (sl : SlideEl) : option (option Blob) :=
  (λ i, resolve w (src i)) <$> slide_img sl.

(** The image of a slide can be stored: it has a source and it resolves. *)
Definition storable `{Browser} (w : World) (sl : SlideEl) : Prop :=
  match slide_img sl with
  | Some i => src i ≠ SrcUrl "" ∧ is_Some (resolve w (src i))
  | None => True
  end.

(** The caption of a slide holds nothing the selectors of the save take
    for a slide or for the image of the slide: no element of class [slide],
    and no [<img>] unless the slide has an image itself, which comes
    first. *)
Definition plain_caption `{Browser} (sl : SlideEl) : Prop :=
  inner_slides (caption_innerHTML sl) = []
  ∧ (slide_img sl = None → inner_imgs (caption_innerHTML sl) = []).

(** A restored slide shows a stored one, its image being an object URL
    registered in [urls] for the stored blob. *)
Definition restored_as (urls : gmap nat Blob) (sd : SavedSlide) (sl : SlideEl) : Prop :=
  question_slide sl = isQuestion sd
  ∧ caption_innerHTML sl = text sd
  ∧ match imageBlob sd with
    | BlobNull => slide_img sl = None
    | BlobOk b => ∃ id, slide_img sl = Some (mkImg (SrcObject id)) ∧ urls !! id = Some b
    | BlobJunk => False
    end.

Section StoredSlides.
Context `{Browser}.

(** The first image of an element of class [slide], when it has a source,
    resolves. *)
Definition fetched (w : World) (v : SlideView) : Prop :=
  match view_img v with
  | Some (SrcUrl "") | None => True
  | Some i => is_Some (resolve w i)
  end.

(** The stored form of an element of class [slide] whose first image is
    fetched. *)
Definition stored (w : World) (v : SlideView) : SavedSlide :=
  mkSavedSlide (view_question v) (default "" (view_caption v))
    (match view_img v with
     | Some (SrcUrl "") | None => BlobNull
     | Some i => match resolve w i with Some b => BlobOk b | None => BlobNull end
     end).

End StoredSlides.

(** ** Sample inputs *)

(** Two payloads that decode, and one that does not. *)
Definition png_hello : InlineData := mkInlineData "aGVsbG8=" "image/png".
Definition png_hi : InlineData := mkInlineData "aGk=" "image/png".
Definition png_broken : InlineData := mkInlineData "!!!" "image/png".


(** ** Text wrapping on the canvas *)

(** [text.split(' ')]: the pieces between single spaces; never empty. *)
Fixpoint split_space (s : string) : list string :=
  match s with
  | EmptyString => [""]
  | String c s' =>
      if Ascii.eqb c " " then "" :: split_space s'
      else match split_space s' with
           | w :: ws => String c w :: ws
           | [] => [String c ""]
           end
  end.

(** The loop of [wrapText] from index [n] on, then the last [fillText]:
    the lines drawn, in order.  [measureText] is
    [context.measureText(_).width] for the font in force; a width is a
    finite double, compared as the rational it denotes.  The k-th line of
    the result is drawn at [y] advanced k times by [lineHeight]. *)
Fixpoint wrap_lines (measureText : string → QArith_base.Q) (maxWidth : QArith_base.Q)
    (n : nat) (words : list string) (line : string) : list string :=
  match words with
  | [] => [line]
  | word :: words' =>
      let testLine := (line +:+ word) +:+ " " in
      let testWidth := measureText testLine in
      if negb (QArith_base.Qle_bool testWidth maxWidth) && bool_decide (0 < n) then
        line :: wrap_lines measureText maxWidth (S n) words' (word +:+ " ")
      else wrap_lines measureText maxWidth (S n) words' testLine
  end.

(** [wrapText(context, text, x, y, maxWidth, lineHeight)] *)
Definition wrapText (measureText : string → QArith_base.Q) (text : string)
    (maxWidth : QArith_base.Q) : list string :=
  wrap_lines measureText maxWidth 0 (split_space text) "".

(** The first word of a line: what precedes its first space. *)
Fixpoint first_word (line : string) : string :=
  match line with
  | EmptyString => ""
  | String c line' => if Ascii.eqb c " " then "" else String c (first_word line')
  end.

(** All strings of a list, one after the other. *)
Definition concat_strings (l : list string) : string := foldr String.append "" l.

(** A width that counts characters, for running [wrapText]. *)
Definition char_width (s : string) : QArith_base.Q :=
  QArith_base.inject_Z (Z.of_nat (String.length s)).

(** ** Further observations *)

Definition is_console_error (ev : Event) : bool :=
  match ev with EvConsoleError _ => true | _ => false end.

(** All the text the parts of a stream carry, in order. *)
Definition part_texts (ps : list Part) : string :=
  concat_strings ((λ p, default "" (part_text p)) <$> ps).

(** The images the loop of [generate] builds from the parts of a stream, in
    order: one for each part without truthy text that has inline data. *)
Definition part_images (ps : list Part) : list Img :=
  omap (λ p, if truthy (default "" (part_text p)) then None
             else img_of <$> inlineData p) ps.

(** The object URLs the images of a slideshow point to, in order. *)
Definition object_ids (l : list SlideEl) : list nat :=
  omap (λ sl, match slide_img sl with
              | Some (mkImg (SrcObject id)) => Some id
              | _ => None
              end) l.

(** A selector list marks a value: the selected items are those whose
    [data-value] is the value. *)
Definition marks (menu : Menu) (value : string) : Prop :=
  Forall (λ item, item.2 = bool_decide (item.1 = value)) menu.

(** The three selector lists and the class of the app container show the
    three module variables. *)
Definition menus_agree (p : Page) : Prop :=
  marks (themeSelector p) (selectedTheme p)
  ∧ marks (ratioSelector p) (selectedRatio p)
  ∧ marks (colorSelector p) (selectedColorStyle p)
  ∧ appContainer_className p = "app-container theme-" +:+ selectedTheme p.

(** The click handler of [downloadBtn]: for each [<img>] under
    [#slideshow], in document order, a link with its [href] and [download]
    attributes is clicked.  [slideshow.querySelectorAll('img')] gives the
    images of every slide, those inside its caption included. *)
Definition download_click `{Browser} (p : Page) : list (ImgSrc * string) :=
  imap (λ index img, (src img, "explanation-slide-" +:+ pretty (index + 1) +:+ ".png"))
    (slideshow p ≫= slide_images).

(** A stream that completes, given as the parts of each candidate of each
    chunk. *)
Definition stream_of (groups : list (list (list Part))) : Stream :=
  mkStream
    ((λ cands, mkChunk (Some ((λ ps, mkCandidate (Some (mkContent (Some ps)))) <$> cands)))
       <$> groups)
    None.

(** A stream of two pairs. *)
Definition two_pairs : Stream :=
  one_chunk [part_of (Text "a"); part_of (Image png_hello);
             part_of (Text "b"); part_of (Image png_hi)].

(** * Proofs *)

Section Proofs.
Context `{Browser}.

(** ** Lemmas on the monad and on worlds *)

Ltac unfold_monad :=
  unfold mbind, M_bind, mret, M_ret, throw, try_catch, emit, modify_page,
    get_page in *.

Lemma truthy_true s : truthy s = true ↔ s ≠ "".
Proof.
  unfold truthy. destruct (String.eqb_spec s ""); simpl; split; congruence.
Qed.

Lemma truthy_false s : truthy s = false ↔ s = "".
Proof.
  unfold truthy. destruct (String.eqb_spec s ""); simpl; split; congruence.
Qed.

Lemma truthy_app_l s t : truthy s = true → truthy (s +:+ t) = true.
Proof. destruct s; [discriminate | reflexivity]. Qed.

Lemma truthy_app_r s t : truthy t = true → truthy (s +:+ t) = true.
Proof. destruct s; [done | reflexivity]. Qed.

Lemma scribe_nil w : scribe [] w = w.
Proof.
  destruct w as [p db f urls tr]. destruct p. unfold scribe, set_slideshow.
  simpl. by rewrite !app_nil_r.
Qed.

Lemma appended_app e1 e2 : appended (e1 ++ e2) = appended e1 ++ appended e2.
Proof. apply omap_app. Qed.

Lemma addSlide_calls_app e1 e2 :
  addSlide_calls (e1 ++ e2) = addSlide_calls e1 ++ addSlide_calls e2.
Proof. apply omap_app. Qed.

Lemma scribe_scribe e1 e2 w : scribe e2 (scribe e1 w) = scribe (e1 ++ e2) w.
Proof.
  unfold scribe, set_slideshow. simpl. by rewrite appended_app, !app_assoc.
Qed.

Lemma scribe_ratio evs w : selectedRatio (page (scribe evs w)) = selectedRatio (page w).
Proof. reflexivity. Qed.

Lemma events_of_trace {A} (m : M A) w evs :
  trace (m w).2 = trace w ++ evs → events_of m w = evs.
Proof. intros E. unfold events_of. rewrite E. apply drop_app_length. Qed.

(** ** The loops of [generate] as functions of the part sequence *)

Lemma generate_part_run part acc w :
  generate_part part acc w =
  (inr (part_acc part acc),
   scribe (part_events (selectedRatio (page w)) part acc) w).
Proof.
  destruct acc as [t i], w as [p db f urls tr], part as [pt pd].
  unfold generate_part, part_acc, part_events, absorb, completes, unrecognized,
    no_data, addSlide, append_slide, emission, scribe, getSelectedRatio.
  unfold_monad. simpl.
  destruct (truthy (default "" pt)) eqn:Ept; simpl.
  - destruct i as [i|]; simpl.
    + rewrite (truthy_app_r t _ Ept). simpl.
      do 2 f_equal. by rewrite <- !app_assoc.
    + do 2 f_equal. * destruct p; unfold set_slideshow; simpl; by rewrite app_nil_r.
  - destruct pd as [d|]; simpl.
    + destruct (truthy t) eqn:Et; simpl.
      * do 2 f_equal. by rewrite <- !app_assoc.
      * do 2 f_equal. destruct p; unfold set_slideshow; simpl; by rewrite app_nil_r.
    + destruct i as [i|]; simpl; [destruct (truthy t) eqn:Et; simpl|].
      * do 2 f_equal. by rewrite <- !app_assoc.
      * do 2 f_equal. { destruct p; unfold set_slideshow; simpl; by rewrite app_nil_r. }
        by rewrite <- !app_assoc.
      * do 2 f_equal. { destruct p; unfold set_slideshow; simpl; by rewrite app_nil_r. }
        by rewrite <- !app_assoc.
Qed.

Lemma parts_acc_app ps qs acc :
  parts_acc (ps ++ qs) acc = parts_acc qs (parts_acc ps acc).
Proof. revert acc. induction ps as [|p ps IH]; intros acc; simpl; [done | apply IH]. Qed.

Lemma parts_events_app r ps qs acc :
  parts_events r (ps ++ qs) acc =
  parts_events r ps acc ++ parts_events r qs (parts_acc ps acc).
Proof.
  revert acc. induction ps as [|p ps IH]; intros acc; simpl; [done |].
  by rewrite IH, app_assoc.
Qed.

Lemma parts_run ps acc w :
  for_of ps generate_part acc w =
  (inr (parts_acc ps acc), scribe (parts_events (selectedRatio (page w)) ps acc) w).
Proof.
  revert acc w. induction ps as [|p ps IH]; intros acc w; simpl.
  - by rewrite scribe_nil.
  - unfold mbind, M_bind. rewrite generate_part_run, IH.
    by rewrite scribe_scribe, scribe_ratio.
Qed.

Lemma candidates_run_spec cs acc w :
  ∃ res, for_of cs generate_candidate acc w =
         (res, scribe (parts_events (selectedRatio (page w)) (candidates_run cs).1 acc) w)
    ∧ if (candidates_run cs).2 then res = inr (parts_acc (candidates_run cs).1 acc)
      else ∃ m, res = inl (TypeError m).
Proof.
  revert acc w. induction cs as [|c cs IH]; intros acc w; simpl.
  - eexists. split; [by rewrite scribe_nil | done].
  - unfold mbind, M_bind, generate_candidate at 1.
    destruct (content c) as [ct|]; simpl.
    + rewrite parts_run.
      destruct (IH (parts_acc (default [] (parts ct)) acc)
                  (scribe (parts_events (selectedRatio (page w)) (default [] (parts ct)) acc) w))
        as (res & E & R).
      rewrite E. eexists. split.
      * by rewrite scribe_scribe, scribe_ratio, parts_events_app.
      * destruct (candidates_run cs).2; [by rewrite parts_acc_app | done].
    + eexists. split; [by rewrite scribe_nil | eauto].
Qed.

Lemma chunks_run_spec chs acc w :
  ∃ res, for_of chs generate_chunk acc w =
         (res, scribe (parts_events (selectedRatio (page w)) (chunks_run chs).1 acc) w)
    ∧ if (chunks_run chs).2 then res = inr (parts_acc (chunks_run chs).1 acc)
      else ∃ m, res = inl (TypeError m).
Proof.
  revert acc w. induction chs as [|ch chs IH]; intros acc w; simpl.
  - eexists. split; [by rewrite scribe_nil | done].
  - unfold mbind, M_bind, generate_chunk at 1.
    destruct (candidates ch) as [cs|]; simpl.
    + destruct (candidates_run_spec cs acc w) as (res & E & R). rewrite E.
      destruct (candidates_run cs).2; simpl.
      * subst res.
        destruct (IH (parts_acc (candidates_run cs).1 acc)
                    (scribe (parts_events (selectedRatio (page w)) (candidates_run cs).1 acc) w))
          as (res & E' & R').
        rewrite E'. eexists. split.
        -- by rewrite scribe_scribe, scribe_ratio, parts_events_app.
        -- destruct (chunks_run chs).2; [by rewrite parts_acc_app | done].
      * destruct R as [m ->]. simpl. eauto.
    + eexists. split; [by rewrite scribe_nil | eauto].
Qed.

Lemma generate_stream_spec s acc w :
  ∃ res, generate_stream s acc w =
         (res, scribe (parts_events (selectedRatio (page w)) (stream_parts s) acc) w)
    ∧ if stream_ok s then res = inr (parts_acc (stream_parts s) acc)
      else ∃ e, res = inl e.
Proof.
  unfold generate_stream, stream_ok, stream_parts, mbind, M_bind.
  destruct (chunks_run_spec (chunks s) acc w) as (res & E & R). rewrite E.
  destruct (chunks_run (chunks s)).2; simpl.
  - subst res. destruct (stream_error s) as [e|]; simpl; eauto.
  - destruct R as [m ->]. eauto.
Qed.

Lemma generate_flush_run acc w :
  generate_flush acc w =
  (inr (flush_acc acc), scribe (flush_events (selectedRatio (page w)) acc) w).
Proof.
  destruct acc as [t [i|]]; unfold generate_flush, flush_acc, flush_events; simpl.
  - unfold addSlide, append_slide, emission, scribe, getSelectedRatio.
    unfold_monad. simpl. destruct w; simpl. by rewrite <- app_assoc.
  - by rewrite scribe_nil.
Qed.

Lemma segmenter_run s w :
  stream_ok s = true →
  segmenter s w =
  (inr (flush_acc (parts_acc (stream_parts s) ("", None))),
   scribe (segmenter_events (selectedRatio (page w)) (stream_parts s)) w).
Proof.
  intros Hok. unfold segmenter, mbind, M_bind.
  destruct (generate_stream_spec s ("", None) w) as (res & E & R).
  rewrite E, Hok in *. subst res. rewrite generate_flush_run.
  by rewrite scribe_scribe, scribe_ratio.
Qed.

Lemma segmenter_calls s w :
  stream_ok s = true →
  addSlide_calls (events_of (segmenter s) w) =
  addSlide_calls (segmenter_events (selectedRatio (page w)) (stream_parts s)).
Proof.
  intros Hok. f_equal. apply events_of_trace. by rewrite segmenter_run.
Qed.

(** ** The code against the segmenter of the specification *)

Lemma completes_acc_of st :
  completes (acc_of st) =
  match SegmenterSpec.pendingImage st with
  | Some d =>
      if bool_decide (SegmenterSpec.pendingCaption st ≠ "")
      then Some (SegmenterSpec.pendingCaption st, img_of d) else None
  | None => None
  end.
Proof.
  destruct st as [c [d|]]; unfold completes, acc_of; simpl; [|done].
  destruct (truthy c) eqn:E.
  - apply truthy_true in E. by rewrite bool_decide_eq_true_2.
  - apply truthy_false in E. by rewrite bool_decide_eq_false_2 by (intros ?; done).
Qed.

Lemma absorb_part_of st f :
  absorb (part_of f) (acc_of st) =
  acc_of (match f with
          | Text v => SegmenterSpec.mkState (SegmenterSpec.pendingCaption st +:+ v)
                        (SegmenterSpec.pendingImage st)
          | Image d => SegmenterSpec.mkState (SegmenterSpec.pendingCaption st) (Some d)
          end).
Proof.
  destruct st as [c i], f as [v|d]; unfold absorb, acc_of; simpl; [|done].
  destruct (truthy v) eqn:E; [done|].
  apply truthy_false in E. subst v.
  f_equal. clear. induction c as [|a c IH]; [reflexivity|].
  change (String a c = String a (c +:+ "")). by f_equal.
Qed.

(** One step of the code against one step of the specification. *)
Lemma part_refines r st f :
  part_acc (part_of f) (acc_of st) = acc_of (SegmenterSpec.consume st f).1
  ∧ call_shape <$> addSlide_calls (part_events r (part_of f) (acc_of st)) =
    SegmenterSpec.as_call <$> option_list (SegmenterSpec.consume st f).2.
Proof.
  unfold part_acc, part_events, SegmenterSpec.consume.
  rewrite absorb_part_of, completes_acc_of.
  set (st' := match f with Text _ => _ | Image _ => _ end).
  assert (L : ∀ l, addSlide_calls
                 (EvPart (part_of f)
                  :: (if unrecognized (part_of f) then [EvConsoleLog "no data"] else []) ++ l)
               = addSlide_calls l).
  { intros l. destruct (unrecognized (part_of f)); reflexivity. }
  rewrite L.
  destruct (SegmenterSpec.pendingImage st') as [d|]; [|done].
  case_bool_decide; done.
Qed.

Lemma parts_refine r fs st :
  parts_acc (part_of <$> fs) (acc_of st) = acc_of (SegmenterSpec.run st fs).1
  ∧ call_shape <$> addSlide_calls (parts_events r (part_of <$> fs) (acc_of st)) =
    SegmenterSpec.as_call <$> (SegmenterSpec.run st fs).2.
Proof.
  revert st. induction fs as [|f fs IH]; intros st; [done|].
  rewrite fmap_cons. cbn [parts_acc parts_events SegmenterSpec.run fst snd].
  destruct (part_refines r st f) as [Ea Ec].
  rewrite Ea. destruct (IH (SegmenterSpec.consume st f).1) as [IHa IHc].
  split; [done|].
  by rewrite addSlide_calls_app, !fmap_app, Ec, IHc.
Qed.

(** After [consume], never both a caption and an image are pending. *)
Lemma consume_settled st f :
  let st' := (SegmenterSpec.consume st f).1 in
  SegmenterSpec.pendingCaption st' = "" ∨ SegmenterSpec.pendingImage st' = None.
Proof.
  unfold SegmenterSpec.consume.
  set (st1 := match f with Text _ => _ | Image _ => _ end).
  destruct (SegmenterSpec.pendingImage st1) as [d|] eqn:E; simpl; [|by right].
  case_bool_decide as Hc; simpl; [by left|].
  left. by destruct (decide (SegmenterSpec.pendingCaption st1 = "")).
Qed.

Lemma run_settled st fs :
  SegmenterSpec.pendingCaption st = "" ∨ SegmenterSpec.pendingImage st = None →
  let st' := (SegmenterSpec.run st fs).1 in
  SegmenterSpec.pendingCaption st' = "" ∨ SegmenterSpec.pendingImage st' = None.
Proof.
  revert st. induction fs as [|f fs IH]; intros st Hst; simpl; [done|].
  apply IH, consume_settled.
Qed.

Lemma flush_refines r st :
  SegmenterSpec.pendingCaption st = "" ∨ SegmenterSpec.pendingImage st = None →
  call_shape <$> addSlide_calls (flush_events r (acc_of st)) =
  SegmenterSpec.as_call <$> option_list (SegmenterSpec.flushRemainder st).
Proof.
  destruct st as [c [d|]]; unfold flush_events, SegmenterSpec.flushRemainder; simpl.
  - intros [-> | ?]; done.
  - done.
Qed.

(** ** The segmenter: per-fragment transition, flush, order, count *)

Lemma generate_part_events part acc w :
  events_of (generate_part part acc) w = part_events (selectedRatio (page w)) part acc.
Proof. apply events_of_trace. by rewrite generate_part_run. Qed.

Lemma scribe_slideshow evs w :
  slideshow (page (scribe evs w)) = slideshow (page w) ++ appended evs.
Proof. reflexivity. Qed.

Lemma scribe_quiet evs w : appended evs = [] → page (scribe evs w) = page w.
Proof.
  intros E. unfold scribe. simpl. rewrite E, app_nil_r. by destruct (page w).
Qed.

(** Every slide the segmenter appends is the rendering of an [addSlide]
    call, in the same order. *)
Lemma part_events_appended r part acc :
  appended (part_events r part acc) =
  answer_slide r <$> addSlide_calls (part_events r part acc).
Proof.
  unfold part_events.
  destruct (unrecognized part), (completes (absorb part acc)); reflexivity.
Qed.

Lemma parts_events_appended r ps acc :
  appended (parts_events r ps acc) =
  answer_slide r <$> addSlide_calls (parts_events r ps acc).
Proof.
  revert acc. induction ps as [|p ps IH]; intros acc; [done|].
  cbn [parts_events].
  by rewrite appended_app, addSlide_calls_app, fmap_app, part_events_appended, IH.
Qed.

Lemma flush_events_appended r acc :
  appended (flush_events r acc) = answer_slide r <$> addSlide_calls (flush_events r acc).
Proof. unfold flush_events. by destruct acc.2. Qed.

Lemma segmenter_events_appended r ps :
  appended (segmenter_events r ps) =
  answer_slide r <$> addSlide_calls (segmenter_events r ps).
Proof.
  unfold segmenter_events.
  by rewrite appended_app, addSlide_calls_app, fmap_app, parts_events_appended,
    flush_events_appended.
Qed.

(** C1.  One fragment through the loop body of [generate]: a text fragment
    is appended to the pending caption, an image fragment replaces the
    pending image; if afterwards the caption is non-empty and an image is
    pending, exactly one [addSlide] call is made with both, the slide is
    appended and both variables are reset; otherwise nothing is emitted and
    the updated accumulator is kept. *)
Theorem C1_pair_completion (f : Fragment) (text : string) (img : option Img) (w : World) :
  let pendingCaption := match f with Text v => text +:+ v | Image _ => text end in
  let pendingImage := match f with Text _ => img | Image d => Some (img_of d) end in
  let r := generate_part (part_of f) (text, img) w in
  let calls := addSlide_calls (events_of (generate_part (part_of f) (text, img)) w) in
  match pendingImage with
  | Some i =>
      if bool_decide (pendingCaption ≠ "") then
        r.1 = inr ("", None)
        ∧ calls = [(pendingCaption, i)]
        ∧ slideshow (page r.2) =
          slideshow (page w) ++ [answer_slide (selectedRatio (page w)) (pendingCaption, i)]
      else
        r.1 = inr (pendingCaption, pendingImage)
        ∧ calls = []
        ∧ slideshow (page r.2) = slideshow (page w)
  | None =>
      r.1 = inr (pendingCaption, None)
      ∧ calls = []
      ∧ slideshow (page r.2) = slideshow (page w)
  end.
Proof.
  intros pendingCaption pendingImage r calls.
  assert (Habs : absorb (part_of f) (text, img) = (pendingCaption, pendingImage)).
  { unfold absorb, pendingCaption, pendingImage. destruct f as [v|d]; simpl; [|done].
    destruct (truthy v) eqn:E; [done|].
    apply truthy_false in E. subst v. f_equal.
    clear. induction text as [|a t IH]; [reflexivity|].
    change (String a t = String a (t +:+ "")). by f_equal. }
  subst r calls. rewrite generate_part_events, generate_part_run.
  cbn [fst snd]. rewrite scribe_slideshow, part_events_appended.
  unfold part_acc, part_events. rewrite Habs.
  assert (L : ∀ l, addSlide_calls
                 (EvPart (part_of f)
                  :: (if unrecognized (part_of f) then [EvConsoleLog "no data"] else []) ++ l)
               = addSlide_calls l).
  { intros l. destruct (unrecognized (part_of f)); reflexivity. }
  rewrite !L. unfold completes. cbn [fst snd].
  destruct pendingImage as [i|]; simpl.
  - destruct (truthy pendingCaption) eqn:E.
    + apply truthy_true in E. rewrite bool_decide_eq_true_2 by done. done.
    + apply truthy_false in E. rewrite bool_decide_eq_false_2 by (intros ?; done).
      by rewrite app_nil_r.
  - by rewrite app_nil_r.
Qed.

(** The accumulator never holds a non-empty caption together with an image
    once a part has gone through the loop body. *)
Lemma part_acc_settled part acc : completes (part_acc part acc) = None.
Proof.
  unfold part_acc. destruct (completes (absorb part acc)) eqn:E; [reflexivity | exact E].
Qed.

Lemma parts_acc_settled ps acc :
  completes acc = None → completes (parts_acc ps acc) = None.
Proof.
  revert acc. induction ps as [|p ps IH]; intros acc Ha; [done|].
  apply IH, part_acc_settled.
Qed.

(** C9.  A part with neither text nor inline data does not raise: in the
    state reached after any parts, the loop body returns the accumulator it
    was given, logs ['no data'] and leaves the page as it was; and the parts
    after it are processed as if it had not been there. *)
Theorem C9_unrecognized_part_skipped
    (part : Part) (before after : list Part) (w : World) :
  unrecognized part = true →
  let acc := parts_acc before ("", None) in
  generate_part part acc w = (inr acc, scribe [EvPart part; EvConsoleLog "no data"] w)
  ∧ page (generate_part part acc w).2 = page w
  ∧ (for_of (before ++ part :: after) generate_part ("", None) w).1 =
    (for_of (before ++ after) generate_part ("", None) w).1
  ∧ page (for_of (before ++ part :: after) generate_part ("", None) w).2 =
    page (for_of (before ++ after) generate_part ("", None) w).2
  ∧ addSlide_calls (events_of (for_of (before ++ part :: after) generate_part ("", None)) w) =
    addSlide_calls (events_of (for_of (before ++ after) generate_part ("", None)) w).
Proof.
  intros Hun acc.
  assert (Hset : completes acc = None) by by apply parts_acc_settled.
  assert (Habs : absorb part acc = acc).
  { unfold unrecognized in Hun. apply andb_true_iff in Hun as [Ht Hd].
    apply negb_true_iff in Ht. apply bool_decide_eq_true in Hd.
    unfold absorb. by rewrite Ht, Hd. }
  assert (Hacc : part_acc part acc = acc).
  { unfold part_acc. by rewrite Habs, Hset. }
  assert (Hev : ∀ r, part_events r part acc = [EvPart part; EvConsoleLog "no data"]).
  { intros r. unfold part_events. by rewrite Habs, Hset, Hun. }
  assert (Hrun : generate_part part acc w =
                 (inr acc, scribe [EvPart part; EvConsoleLog "no data"] w)).
  { by rewrite generate_part_run, Hacc, Hev. }
  split; [exact Hrun|]. split; [rewrite Hrun; by apply scribe_quiet|].
  assert (Hevs : ∀ r, parts_events r (before ++ part :: after) ("", None) =
                      parts_events r before ("", None)
                      ++ [EvPart part; EvConsoleLog "no data"]
                      ++ parts_events r after acc).
  { intros r. rewrite parts_events_app. cbn [parts_events]. fold acc.
    by rewrite Hev, Hacc. }
  assert (Haccs : parts_acc (before ++ part :: after) ("", None) =
                  parts_acc (before ++ after) ("", None)).
  { rewrite !parts_acc_app. cbn [parts_acc]. fold acc. by rewrite Hacc. }
  rewrite !(events_of_trace _ w _ (f_equal (λ x, trace x.2) (parts_run _ _ w))).
  rewrite !parts_run. cbn [fst snd]. rewrite Haccs. split; [done|].
  rewrite Hevs, (parts_events_app _ before after). fold acc.
  split.
  - unfold scribe. cbn [page]. by rewrite !appended_app.
  - by rewrite !addSlide_calls_app.
Qed.

(** C3.  The flush after the loop: with an image pending, exactly one more
    [addSlide] call is made, with that image and the pending caption; with
    no image pending nothing happens, whatever the caption.  An image alone
    gives one slide with the empty caption; a text alone gives none. *)
Theorem C3_flush_keeps_image_drops_caption
    (text : string) (img : Img) (d : InlineData) (w : World) :
  addSlide_calls (events_of (generate_flush (text, Some img)) w) = [(text, img)]
  ∧ slideshow (page (generate_flush (text, Some img) w).2) =
    slideshow (page w) ++ [answer_slide (selectedRatio (page w)) (text, img)]
  ∧ generate_flush (text, None) w = (inr (text, None), w)
  ∧ addSlide_calls (events_of (segmenter (one_chunk [part_of (Image d)])) w) =
    [("", img_of d)]
  ∧ addSlide_calls (events_of (segmenter (one_chunk [part_of (Text "a")])) w) = [].
Proof.
  split; [|split; [|split; [|split]]].
  - erewrite events_of_trace; [|by rewrite generate_flush_run]. reflexivity.
  - by rewrite generate_flush_run.
  - by rewrite generate_flush_run, scribe_nil.
  - by rewrite segmenter_calls.
  - by rewrite segmenter_calls.
Qed.

Lemma pair_fragments_run r (g : bool * string * InlineData) :
  g.1.2 ≠ "" →
  parts_acc (part_of <$> pair_fragments g) ("", None) = ("", None)
  ∧ addSlide_calls (parts_events r (part_of <$> pair_fragments g) ("", None)) =
    [(g.1.2, img_of g.2)].
Proof.
  destruct g as [[first c] d]. simpl. intros Hc.
  apply truthy_true in Hc.
  destruct first; unfold pair_fragments; cbn [fst snd fmap list_fmap part_of parts_acc parts_events].
  - unfold part_acc, part_events, absorb, completes, unrecognized. simpl.
    rewrite Hc. simpl. change ("" +:+ c) with c. simpl. by rewrite Hc.
  - unfold part_acc, part_events, absorb, completes, unrecognized. simpl.
    rewrite Hc. simpl. change ("" +:+ c) with c. by rewrite Hc.
Qed.

Lemma groups_run r (groups : list (bool * string * InlineData)) :
  Forall (λ g, g.1.2 ≠ "") groups →
  parts_acc (part_of <$> (groups ≫= pair_fragments)) ("", None) = ("", None)
  ∧ addSlide_calls (parts_events r (part_of <$> (groups ≫= pair_fragments)) ("", None)) =
    (λ g, (g.1.2, img_of g.2)) <$> groups.
Proof.
  induction 1 as [|g groups Hg _ [IHa IHc]]; [done|].
  destruct (pair_fragments_run r g Hg) as [Ea Ec].
  rewrite bind_cons, fmap_app, parts_acc_app, parts_events_app, addSlide_calls_app.
  rewrite Ea, Ec, IHc. split; [exact IHa | reflexivity].
Qed.

(** C4.  Order is preserved.  [Text "a"; Image1; Text "b"; Image2] gives two
    [addSlide] calls, ("a", Image1) then ("b", Image2).  In general, when the stream
    brings a sequence of pairs, each as a non-empty text and an image in
    either order, the calls are these pairs in the order of arrival, nothing
    is left for the flush, and the slides are appended in that order. *)
Theorem C4_order_preserving
    (groups : list (bool * string * InlineData)) (d1 d2 : InlineData) (w : World) :
  Forall (λ g, g.1.2 ≠ "") groups →
  addSlide_calls
    (events_of (segmenter (one_chunk (part_of <$> [Text "a"; Image d1; Text "b"; Image d2]))) w)
  = [("a", img_of d1); ("b", img_of d2)]
  ∧ addSlide_calls
      (events_of (segmenter (one_chunk (part_of <$> (groups ≫= pair_fragments)))) w)
    = (λ g, (g.1.2, img_of g.2)) <$> groups
  ∧ slideshow (page (segmenter (one_chunk (part_of <$> (groups ≫= pair_fragments))) w).2)
    = slideshow (page w)
      ++ (answer_slide (selectedRatio (page w)) <$> ((λ g, (g.1.2, img_of g.2)) <$> groups)).
Proof.
  intros Hg. split; [by rewrite segmenter_calls|].
  destruct (groups_run (selectedRatio (page w)) groups Hg) as [Ea Ec].
  assert (Hcalls : addSlide_calls
            (segmenter_events (selectedRatio (page w))
               (stream_parts (one_chunk (part_of <$> (groups ≫= pair_fragments)))))
          = (λ g, (g.1.2, img_of g.2)) <$> groups).
  { unfold segmenter_events, stream_parts. cbn [one_chunk chunks chunks_run candidates
      candidates_run content parts fst snd default from_option id].
    rewrite !app_nil_r, addSlide_calls_app, Ea, Ec. cbn. by rewrite app_nil_r. }
  split.
  - by rewrite segmenter_calls.
  - rewrite segmenter_run by done. cbn [snd].
    by rewrite scribe_slideshow, segmenter_events_appended, Hcalls.
Qed.

(** C2.  The [addSlide] calls of a whole stream followed by the flush are
    the slides the pairing rule of the specification completes, then those
    of its end-of-stream flush: their number is the number of completed
    pairs plus at most one trailing slide, which has an image and the empty
    caption; with no image pending at the end there is no trailing slide,
    whatever caption is pending. *)
Theorem C2_slide_count (fs : list Fragment) (s : Stream) (w : World) :
  stream_ok s = true →
  stream_parts s = part_of <$> fs →
  let calls := addSlide_calls (events_of (segmenter s) w) in
  call_shape <$> calls =
    SegmenterSpec.as_call <$> (SegmenterSpec.completed fs ++ SegmenterSpec.trailing fs)
  ∧ List.length calls =
    List.length (SegmenterSpec.completed fs) + List.length (SegmenterSpec.trailing fs)
  ∧ List.length (SegmenterSpec.trailing fs) ≤ 1
  ∧ Forall (λ sl, SegmenterSpec.caption sl = "" ∧ is_Some (SegmenterSpec.image sl))
      (SegmenterSpec.trailing fs)
  ∧ match SegmenterSpec.pendingImage (SegmenterSpec.remainder fs) with
    | Some _ => List.length calls = S (List.length (SegmenterSpec.completed fs))
    | None => List.length calls = List.length (SegmenterSpec.completed fs)
    end.
Proof.
  intros Hok Hparts calls.
  assert (Hsettled : SegmenterSpec.pendingCaption (SegmenterSpec.remainder fs) = ""
                     ∨ SegmenterSpec.pendingImage (SegmenterSpec.remainder fs) = None).
  { apply run_settled. by left. }
  assert (Hcalls : call_shape <$> calls =
            SegmenterSpec.as_call <$> (SegmenterSpec.completed fs ++ SegmenterSpec.trailing fs)).
  { unfold calls. rewrite segmenter_calls by done. rewrite Hparts.
    unfold segmenter_events. rewrite addSlide_calls_app, !fmap_app.
    destruct (parts_refine (selectedRatio (page w)) fs SegmenterSpec.empty) as [Ea Ec].
    change (acc_of SegmenterSpec.empty) with (("", None) : Acc) in Ea, Ec.
    rewrite Ec, Ea. by rewrite flush_refines. }
  assert (Hlen : List.length calls =
            List.length (SegmenterSpec.completed fs) + List.length (SegmenterSpec.trailing fs)).
  { rewrite <- (length_fmap call_shape), Hcalls, length_fmap. apply length_app. }
  assert (Htr : SegmenterSpec.trailing fs =
            match SegmenterSpec.pendingImage (SegmenterSpec.remainder fs) with
            | Some d => [SegmenterSpec.mkSlide SegmenterSpec.Answer "" (Some d)]
            | None => []
            end).
  { unfold SegmenterSpec.trailing, SegmenterSpec.flushRemainder.
    destruct (SegmenterSpec.pendingImage (SegmenterSpec.remainder fs)) as [d|]; [|done].
    destruct Hsettled as [-> | ?]; done. }
  split; [exact Hcalls|]. split; [exact Hlen|].
  rewrite Hlen, Htr.
  destruct (SegmenterSpec.pendingImage (SegmenterSpec.remainder fs)) as [d|]; simpl.
  - repeat split; [lia | | lia]. constructor; [|constructor]. split; [done | by eexists].
  - repeat split; [lia | constructor | lia].
Qed.

(** ** Saving, and a whole generation *)

Lemma dataUrlToBlob_run s w :
  dataUrlToBlob s w =
  match resolve w s with
  | Some b => (inr b, w)
  | None => (inl (TypeError "Failed to fetch"), w)
  end.
Proof. by destruct s. Qed.

Lemma encode_run l w :
  promise_all_map
    (λ slide,
       match view_img slide with
       | Some (SrcUrl "") | None =>
           mret (mkSavedSlide (view_question slide)
                   (or_else (default "" (view_caption slide)) "") BlobNull)
       | Some imageSrc =>
           imageBlob ← dataUrlToBlob imageSrc;
           mret (mkSavedSlide (view_question slide)
                   (or_else (default "" (view_caption slide)) "") (BlobOk imageBlob))
       end) l w =
  match encode_slides w l with
  | Some saved => (inr saved, w)
  | None => (inl (TypeError "Failed to fetch"), w)
  end.
Proof.
  induction l as [|s l IH]; [done|].
  cbn [promise_all_map encode_slides]. unfold mbind at 1, M_bind at 1.
  assert (E : (match view_img s with
       | Some (SrcUrl "") | None =>
           mret (mkSavedSlide (view_question s)
                   (or_else (default "" (view_caption s)) "") BlobNull)
       | Some imageSrc =>
           imageBlob ← dataUrlToBlob imageSrc;
           mret (mkSavedSlide (view_question s)
                   (or_else (default "" (view_caption s)) "") (BlobOk imageBlob))
       end) w = match encode_slide w s with
                | Some x => (inr x, w)
                | None => (inl (TypeError "Failed to fetch"), w)
                end).
  { unfold encode_slide. destruct (view_img s) as [[u|id]|]; [| |done].
    - destruct u as [|a u]; [done|].
      unfold mbind, M_bind. rewrite dataUrlToBlob_run.
      by destruct (resolve w (SrcUrl (String a u))).
    - unfold mbind, M_bind. rewrite dataUrlToBlob_run.
      by destruct (resolve w (SrcObject id)). }
  rewrite E. destruct (encode_slide w s) as [x|]; [|done].
  unfold mbind at 1, M_bind at 1. rewrite IH.
  by destruct (encode_slides w l).
Qed.

Lemma saveSlideshowToStorage_run question w :
  saveSlideshowToStorage question w = (inr tt, saved_world question w).
Proof.
  unfold saveSlideshowToStorage, saved_world.
  unfold mbind at 1, M_bind at 1, get_page at 1.
  case_bool_decide; [done|].
  unfold try_catch, mbind at 1, M_bind at 1. rewrite encode_run.
  destruct (encode_slides w (slide_elements (slideshow (page w)))) as [saved|]; [|done].
  unfold mbind, M_bind, get_page, saveDataToDB, snapshot.
  destruct (next_fault w); reflexivity.
Qed.

Lemma generate_clear_failed message s w :
  next_fault w = true →
  generate message s w =
  (inl (DBError "delete failed"),
   answered (idb w) (EvDbDelete SLIDESHOW_KEY false) w).
Proof.
  intros Hf. unfold generate, mbind at 1, M_bind at 1.
  unfold mbind at 1, M_bind at 1, clearDataFromDB. by rewrite Hf.
Qed.

Lemma world_eq w1 w2 :
  page w1 = page w2 → idb w1 = idb w2 → idb_faults w1 = idb_faults w2 →
  objectURLs w1 = objectURLs w2 → issuedURLs w1 = issuedURLs w2 →
  trace w1 = trace w2 → w1 = w2.
Proof. destruct w1, w2. simpl. by intros -> -> -> -> -> ->. Qed.

Lemma seq_congr {A B} (m1 m2 : M A) (k : A → M B) w1 w2 :
  m1 w1 = m2 w2 → (m1 ≫= k) w1 = (m2 ≫= k) w2.
Proof. unfold mbind, M_bind. by intros ->. Qed.

Lemma bind_clear_ok {A} key (k : M A) w :
  next_fault w = false →
  (clearDataFromDB key;; k) w =
  k (answered (delete key (idb w)) (EvDbDelete key true) w).
Proof. intros Hf. unfold mbind, M_bind, clearDataFromDB. by rewrite Hf. Qed.

Lemma bind_modify {A} f (k : M A) w : (modify_page f;; k) w = k (on_page f w).
Proof. reflexivity. Qed.

Lemma try_modify {A} f (k : M A) h w :
  try_catch (modify_page f;; k) h w = try_catch k h (on_page f w).
Proof. reflexivity. Qed.

Lemma try_emit {A} ev (k : M A) h w :
  try_catch (emit ev;; k) h w = try_catch k h (logged [ev] w).
Proof. reflexivity. Qed.

Lemma try_get_page {A} (k : Page → M A) h w :
  try_catch (get_page ≫= k) h w = try_catch (k (page w)) h w.
Proof. reflexivity. Qed.

Lemma try_append {A} sl (k : M A) h w :
  try_catch (append_slide sl;; k) h w =
  try_catch k h
    (logged [EvAppend sl]
       (on_page (λ p, set_slideshow (slideshow p ++ [sl]) (slideshow_hidden p) p) w)).
Proof. reflexivity. Qed.

Lemma generate_unfold message s w :
  next_fault w = false →
  generate message s w =
  (try_catch
     (acc ← generate_stream s ("", None);
      generate_flush acc;;
      p ← get_page;
      if bool_decide (1 < List.length (slideshow p)) then
        modify_page (set_actions_hidden false);;
        saveSlideshowToStorage message
      else mret tt)
     (λ e, modify_page (show_error e));;
   modify_page enable_inputs) (started message w).
Proof.
  intros Hf. unfold generate. rewrite bind_clear_ok by done.
  rewrite !bind_modify. apply seq_congr.
  rewrite !try_modify, try_get_page, try_append, try_modify, try_emit.
  unfold show_error. f_equal.
  apply world_eq; [reflexivity..|].
  transitivity (((trace w ++ [EvDbDelete SLIDESHOW_KEY true])
                 ++ [EvAppend (question_el message w)]) ++ [EvStreamOpen]);
    [reflexivity|].
  unfold started. cbn [trace]. by rewrite <- !app_assoc.
Qed.

Lemma generate_completed message s w :
  next_fault w = false →
  stream_ok s = true →
  generate message s w =
  (inr tt,
   on_page enable_inputs
     (finish message
        (scribe (segmenter_events (selectedRatio (page w)) (stream_parts s))
           (started message w)))).
Proof.
  intros Hf Hok. rewrite generate_unfold by done.
  unfold mbind at 1, M_bind at 1, try_catch.
  unfold mbind at 1, M_bind at 1.
  destruct (generate_stream_spec s ("", None) (started message w)) as (res & E & R).
  rewrite E, Hok in *. subst res.
  unfold mbind at 1, M_bind at 1. rewrite generate_flush_run.
  rewrite scribe_scribe, scribe_ratio.
  change (selectedRatio (page (started message w))) with (selectedRatio (page w)).
  fold (segmenter_events (selectedRatio (page w)) (stream_parts s)).
  unfold mbind at 1, M_bind at 1, get_page at 1, finish.
  case_bool_decide.
  - unfold mbind at 1, M_bind at 1, modify_page at 1.
    by rewrite saveSlideshowToStorage_run.
  - reflexivity.
Qed.

Lemma generate_aborted message s w :
  next_fault w = false →
  stream_ok s = false →
  ∃ e, generate message s w =
       (inr tt,
        on_page enable_inputs
          (on_page (show_error e)
             (scribe (parts_events (selectedRatio (page w)) (stream_parts s) ("", None))
                (started message w)))).
Proof.
  intros Hf Hok. rewrite generate_unfold by done.
  unfold mbind at 1, M_bind at 1, try_catch.
  unfold mbind at 1, M_bind at 1.
  destruct (generate_stream_spec s ("", None) (started message w)) as (res & E & R).
  rewrite E, Hok in *. destruct R as [e ->]. by exists e.
Qed.

Lemma trace_saved_world question w :
  trace (saved_world question w) = trace w ++ save_events question w.
Proof.
  unfold saved_world, save_events. case_bool_decide; [by rewrite app_nil_r|].
  destruct (encode_slides w (slide_elements (slideshow (page w)))) as [saved|]; [|done].
  destruct (next_fault w); simpl; [by rewrite <- app_assoc | done].
Qed.

Lemma trace_finish message w :
  trace (finish message w) = trace w ++ finish_events message w.
Proof.
  unfold finish, finish_events. case_bool_decide; [|by rewrite app_nil_r].
  by rewrite trace_saved_world.
Qed.

Lemma events_of_generate message s w :
  events_of (generate message s) w = generate_events message s w.
Proof.
  apply events_of_trace. unfold generate_events.
  destruct (next_fault w) eqn:Hf.
  - by rewrite generate_clear_failed.
  - destruct (stream_ok s) eqn:Hok.
    + rewrite generate_completed by done. cbn [snd on_page trace].
      rewrite trace_finish. unfold flushed. cbn [scribe started trace].
      by rewrite <- !app_assoc.
    + destruct (generate_aborted message s w Hf Hok) as [e ->].
      cbn [snd on_page trace scribe started]. by rewrite <- !app_assoc.
Qed.

(** ** Traces and the store *)

Lemma part_events_silent r part acc : forallb db_silent (part_events r part acc) = true.
Proof.
  unfold part_events.
  destruct (unrecognized part), (completes (absorb part acc)); reflexivity.
Qed.

Lemma parts_events_silent r ps acc : forallb db_silent (parts_events r ps acc) = true.
Proof.
  revert acc. induction ps as [|p ps IH]; intros acc; [done|].
  cbn [parts_events]. by rewrite forallb_app, part_events_silent, IH.
Qed.

Lemma segmenter_events_silent r ps : forallb db_silent (segmenter_events r ps) = true.
Proof.
  unfold segmenter_events. rewrite forallb_app, parts_events_silent.
  unfold flush_events. by destruct (parts_acc ps ("", None)).2.
Qed.

Lemma silent_no_put evs : forallb db_silent evs = true → put_invoked evs = false.
Proof.
  induction evs as [|ev evs IH]; [done|]. simpl.
  intros [Hev Hevs]%andb_true_iff. rewrite (IH Hevs). by destruct ev.
Qed.

Lemma store_after_app store e1 e2 :
  store_after store (e1 ++ e2) = store_after (store_after store e1) e2.
Proof. apply foldl_app. Qed.

Lemma store_after_silent store evs :
  forallb db_silent evs = true → store_after store evs = store.
Proof.
  revert store. induction evs as [|ev evs IH]; intros store; [done|]. simpl.
  intros [Hev Hevs]%andb_true_iff. unfold store_after in *. simpl.
  rewrite <- (IH store Hevs) at 2. by destruct ev.
Qed.

Lemma put_invoked_app e1 e2 : put_invoked (e1 ++ e2) = put_invoked e1 || put_invoked e2.
Proof. apply existsb_app. Qed.

(** Once the entry of a key was deleted, it stays absent until a put goes
    through. *)
Lemma store_after_cleared key store evs :
  store !! key = None →
  store_after store evs !! key = None ∨ put_succeeded evs = true.
Proof.
  revert store. induction evs as [|ev evs IH]; intros store Hs; [by left|].
  unfold store_after, put_succeeded in *. simpl.
  destruct ev as [k [|]|k v [|]|k ok| | | | | |]; simpl;
    try (by apply IH); [|by right].
  apply IH. destruct (decide (k = key)) as [->|Hne].
  - apply lookup_delete_eq.
  - by rewrite lookup_delete_ne.
Qed.

(** ** The rebuild loop and the restore by cases *)

Lemma restore_loop_run r l w :
  for_of l (restore_slide r) tt w =
  (if (restored r l (objectURLs w) (issuedURLs w)).2 then inr tt
   else inl (TypeError "createObjectURL: Overload resolution failed"),
   mkWorld
     (set_slideshow
        (slideshow (page w) ++ (restored r l (objectURLs w) (issuedURLs w)).1.1)
        (slideshow_hidden (page w)) (page w))
     (idb w) (idb_faults w) (restored r l (objectURLs w) (issuedURLs w)).1.2
     (restored_issued l (objectURLs w) (issuedURLs w))
     (trace w ++ (EvAppend <$> (restored r l (objectURLs w) (issuedURLs w)).1.1))).
Proof.
  revert w. induction l as [|sd l IH]; intros w.
  - simpl. unfold mret, M_ret. f_equal.
    destruct w as [p db f urls iss tr]. destruct p. simpl. by rewrite !app_nil_r.
  - cbn [for_of restored restored_issued].
    unfold mbind at 1, M_bind at 1, restore_slide at 1.
    destruct (imageBlob sd) as [|b|].
    + unfold append_slide, restored_el. unfold_monad. rewrite IH. simpl.
      f_equal. f_equal; [|by rewrite <- app_assoc].
      by rewrite <- app_assoc.
    + unfold append_slide, restored_el, createObjectURL. unfold_monad. rewrite IH. simpl.
      f_equal. f_equal; [|by rewrite <- app_assoc].
      by rewrite <- app_assoc.
    + unfold append_slide, restored_el, createObjectURL. unfold_monad. simpl.
      reflexivity.
Qed.

Lemma restored_ok r l urls issued :
  (restored r l urls issued).2 = negb (existsb is_junk l).
Proof.
  revert urls issued. induction l as [|sd l IH]; intros urls issued; [done|].
  cbn [restored existsb]. unfold is_junk at 1.
  destruct (imageBlob sd); simpl; [apply IH | apply IH | done].
Qed.

Lemma try_bind_run {A B} (m : M A) (k : A → M B) h w :
  try_catch (m ≫= k) h w =
  match m w with
  | (inr a, w') => try_catch (k a) h w'
  | (inl e, w') => h e w'
  end.
Proof. unfold try_catch, mbind, M_bind. by destruct (m w) as [[e|a] w']. Qed.

Lemma bind_emit {A} ev (k : M A) w : (emit ev;; k) w = k (logged [ev] w).
Proof. reflexivity. Qed.

Lemma load_run w :
  loadSlideshowFromStorage w =
  match load_outcome w with
  | GetRejected => recovered (answered (idb w) (EvDbGet SLIDESHOW_KEY false) w)
  | Missing =>
      (inr tt,
       on_page (set_className ("app-container theme-" +:+ selectedTheme (page w)))
         (answered (idb w) (EvDbGet SLIDESHOW_KEY true) w))
  | Undecodable saved => recovered (rebuilt saved w)
  | Restorable saved =>
      (inr tt,
       on_page (set_actions_hidden false)
         (on_page (λ p, set_slideshow (slideshow p) false p) (rebuilt saved w)))
  end.
Proof.
  unfold loadSlideshowFromStorage, load_outcome.
  rewrite try_bind_run. unfold loadDataFromDB at 1.
  destruct (next_fault w) eqn:Hf; [reflexivity|].
  fold (answered (idb w) (EvDbGet SLIDESHOW_KEY true) w).
  destruct (idb w !! SLIDESHOW_KEY) as [saved|] eqn:Hs; [|reflexivity].
  unfold setAppTheme. rewrite !try_modify, try_bind_run, restore_loop_run.
  rewrite restored_ok.
  destruct (existsb is_junk (slides saved)) eqn:Hj; cbn [negb].
  - unfold recovered. rewrite bind_emit.
    apply (f_equal (λ x, clearDataFromDB SLIDESHOW_KEY (logged [load_failed] x))).
    apply world_eq; [reflexivity..|].
    transitivity ((trace w ++ [EvDbGet SLIDESHOW_KEY true])
                  ++ (EvAppend <$> (restored (or_else (ratio saved) "1-1")
                                      (slides saved) (objectURLs w)
                                      (issuedURLs w)).1.1));
      [reflexivity|].
    unfold rebuilt. cbn [trace]. by rewrite <- app_assoc.
  - rewrite try_modify.
    apply (f_equal (λ x, (inr tt : Result unit,
                          on_page (set_actions_hidden false)
                            (on_page (λ p, set_slideshow (slideshow p) false p) x)))).
    apply world_eq; [reflexivity..|].
    transitivity ((trace w ++ [EvDbGet SLIDESHOW_KEY true])
                  ++ (EvAppend <$> (restored (or_else (ratio saved) "1-1")
                                      (slides saved) (objectURLs w)
                                      (issuedURLs w)).1.1));
      [reflexivity|].
    unfold rebuilt. cbn [trace]. by rewrite <- app_assoc.
Qed.

(** ** Persistence: when a snapshot is written, cleared and restored *)

Lemma save_events_no_slides question w :
  appended (save_events question w) = [] ∧ addSlide_calls (save_events question w) = [].
Proof.
  unfold save_events. case_bool_decide; [done|].
  destruct (encode_slides w (slide_elements (slideshow (page w)))); [|done].
  by destruct (next_fault w).
Qed.

Lemma finish_events_no_slides message w :
  appended (finish_events message w) = [] ∧ addSlide_calls (finish_events message w) = [].
Proof.
  unfold finish_events. case_bool_decide; [apply save_events_no_slides | done].
Qed.

Lemma page_saved_world question w : page (saved_world question w) = page w.
Proof.
  unfold saved_world. case_bool_decide; [done|].
  destruct (encode_slides w (slide_elements (slideshow (page w)))); [|done].
  by destruct (next_fault w).
Qed.

Lemma objectURLs_saved_world question w :
  objectURLs (saved_world question w) = objectURLs w.
Proof.
  unfold saved_world. case_bool_decide; [done|].
  destruct (encode_slides w (slide_elements (slideshow (page w)))); [|done].
  by destruct (next_fault w).
Qed.

Lemma idb_saved_world question w :
  idb (saved_world question w) = store_after (idb w) (save_events question w).
Proof.
  unfold saved_world, save_events. case_bool_decide; [done|].
  destruct (encode_slides w (slide_elements (slideshow (page w)))); [|done].
  by destruct (next_fault w).
Qed.

Lemma slideshow_finish message w :
  slideshow (page (finish message w)) = slideshow (page w).
Proof.
  unfold finish. case_bool_decide; [|done]. by rewrite page_saved_world.
Qed.

Lemma objectURLs_finish message w : objectURLs (finish message w) = objectURLs w.
Proof.
  unfold finish. case_bool_decide; [|done]. by rewrite objectURLs_saved_world.
Qed.

Lemma idb_finish message w :
  idb (finish message w) = store_after (idb w) (finish_events message w).
Proof.
  unfold finish, finish_events. case_bool_decide; [|done]. by rewrite idb_saved_world.
Qed.

Lemma encode_slides_ext w1 w2 l :
  objectURLs w1 = objectURLs w2 → encode_slides w1 l = encode_slides w2 l.
Proof.
  intros E. induction l as [|s l IH]; [done|].
  cbn [encode_slides]. rewrite IH. f_equal.
  unfold encode_slide, resolve. by rewrite E.
Qed.

Lemma slide_elements_cons sl l :
  slide_elements (sl :: l) =
  slide_view sl :: inner_slides (caption_innerHTML sl) ++ slide_elements l.
Proof. reflexivity. Qed.

Lemma slide_elements_length l : List.length l ≤ List.length (slide_elements l).
Proof.
  induction l as [|sl l IH]; [done|].
  rewrite slide_elements_cons. cbn [List.length]. rewrite length_app. lia.
Qed.

Lemma put_invoked_save question w :
  put_invoked (save_events question w) =
  bool_decide (1 < List.length (slide_elements (slideshow (page w))))
  && bool_decide (is_Some (encode_slides w (slide_elements (slideshow (page w))))).
Proof.
  unfold save_events. case_bool_decide as Hle.
  - rewrite bool_decide_eq_false_2 by lia. done.
  - rewrite bool_decide_eq_true_2 by lia.
    destruct (encode_slides w (slide_elements (slideshow (page w)))) as [saved|].
    + rewrite bool_decide_eq_true_2 by by eexists. by destruct (next_fault w).
    + rewrite bool_decide_eq_false_2; [done|]. by intros [? ?].
Qed.

Lemma finish_events_store message w :
  put_invoked (finish_events message w) = false →
  store_after (idb w) (finish_events message w) = idb w.
Proof.
  unfold finish_events, save_events.
  case_bool_decide; [|done]. case_bool_decide; [done|].
  cbn [on_page page idb].
  destruct (encode_slides _ _); [|done].
  destruct (next_fault _); discriminate.
Qed.

(** C6, amended.  [saveDataToDB] is called in a generation exactly when the
    initial clear went through, the stream was iterated to its end without
    an exception, the slideshow holds more than the question slide, and
    every element of class [slide] under [#slideshow] is encoded: the first
    image it holds, if that has a source, resolves to a blob.  So no put
    without a completed stream and none for the question slide alone; and
    without a put the store holds no snapshot, unless the clear itself
    failed. *)
Theorem C6_put_iff_completed_and_encoded (message : string) (s : Stream) (w : World) :
  let evs := events_of (generate message s) w in
  let w' := (generate message s w).2 in
  put_invoked evs =
    negb (next_fault w) && stream_ok s
    && bool_decide (1 < List.length (slideshow (page w')))
    && bool_decide (is_Some (encode_slides w' (slide_elements (slideshow (page w')))))
  ∧ put_invoked evs && negb (stream_ok s) = false
  ∧ put_invoked evs && bool_decide (List.length (slideshow (page w')) ≤ 1) = false
  ∧ (if put_invoked evs then True
     else idb w' !! SLIDESHOW_KEY =
          if next_fault w then idb w !! SLIDESHOW_KEY else None).
Proof.
  intros evs w'.
  assert (Hmain : put_invoked evs =
    negb (next_fault w) && stream_ok s
    && bool_decide (1 < List.length (slideshow (page w')))
    && bool_decide (is_Some (encode_slides w' (slide_elements (slideshow (page w')))))
    ∧ (if put_invoked evs then True
       else idb w' !! SLIDESHOW_KEY =
            if next_fault w then idb w !! SLIDESHOW_KEY else None)).
  { subst evs w'. rewrite events_of_generate. unfold generate_events.
    destruct (next_fault w) eqn:Hf.
    { rewrite generate_clear_failed by done. done. }
    destruct (stream_ok s) eqn:Hok.
    - rewrite generate_completed by done. cbn [snd negb andb].
      fold (flushed message s w).
      change (slideshow (page (on_page enable_inputs ?x))) with (slideshow (page x)).
      rewrite slideshow_finish.
      rewrite (encode_slides_ext _ (on_page (set_actions_hidden false) (flushed message s w)))
        by (change (objectURLs (finish message (flushed message s w)) =
                    objectURLs (flushed message s w)); apply objectURLs_finish).
      rewrite !put_invoked_app.
      rewrite (silent_no_put (segmenter_events _ _)) by apply segmenter_events_silent.
      cbn [put_invoked existsb is_put orb].
      fold (flushed message s w).
      assert (Hfin : put_invoked (finish_events message (flushed message s w)) =
                bool_decide (1 < List.length (slideshow (page (flushed message s w))))
                && bool_decide (is_Some (encode_slides
                      (on_page (set_actions_hidden false) (flushed message s w))
                      (slide_elements (slideshow (page (flushed message s w))))))).
      { unfold finish_events. case_bool_decide as Hlen; [|done].
        rewrite put_invoked_save. cbn [on_page page set_actions_hidden slideshow].
        rewrite bool_decide_eq_true_2; [done|].
        pose proof (slide_elements_length (slideshow (page (flushed message s w)))).
        lia. }
      split; [exact Hfin|].
      destruct (put_invoked (finish_events message (flushed message s w))) eqn:Hp; [done|].
      change (idb (on_page enable_inputs ?x)) with (idb x).
      rewrite idb_finish.
      rewrite finish_events_store by done. apply lookup_delete_eq.
    - destruct (generate_aborted message s w Hf Hok) as [e ->].
      cbn [snd negb andb]. rewrite put_invoked_app.
      rewrite (silent_no_put (parts_events _ _ _)) by apply parts_events_silent.
      split; [done|]. apply lookup_delete_eq. }
  destruct Hmain as [Hput Hstore]. split; [exact Hput|].
  split; [|split; [|exact Hstore]].
  - rewrite Hput. destruct (next_fault w), (stream_ok s); simpl; try done.
    by rewrite andb_false_r.
  - rewrite Hput. destruct (next_fault w), (stream_ok s); simpl; try done.
    case_bool_decide as Hlen; [|done].
    rewrite (bool_decide_eq_false_2 (List.length _ ≤ 1)) by lia.
    by rewrite andb_false_r.
Qed.

(** C7, amended.  The first effect of [generate] is the delete of the
    stored snapshot, before the question slide is created and before any
    fragment is consumed.  The trace is an account of the store.  When the
    delete went through, the store has no snapshot after any non-empty
    prefix of the run, as long as no put went through in that prefix: an
    interrupted generation leaves nothing to restore.  When the delete is
    rejected, [generate] rejects with nothing else done: the page and the
    stored snapshot stay as they were. *)
Theorem C7_clear_before_generation (message : string) (s : Stream) (w : World) :
  let evs := events_of (generate message s) w in
  let w' := (generate message s w).2 in
  take 1 evs = [EvDbDelete SLIDESHOW_KEY (negb (next_fault w))]
  ∧ idb w' = store_after (idb w) evs
  ∧ (if next_fault w then
       (generate message s w).1 = inl (DBError "delete failed")
       ∧ evs = [EvDbDelete SLIDESHOW_KEY false]
       ∧ page w' = page w
     else
       ∀ n, store_after (idb w) (take (S n) evs) !! SLIDESHOW_KEY = None
            ∨ put_succeeded (take (S n) evs) = true).
Proof.
  intros evs w'. subst evs w'. rewrite events_of_generate. unfold generate_events.
  destruct (next_fault w) eqn:Hf.
  { rewrite generate_clear_failed by done. done. }
  split; [done|]. split.
  - destruct (stream_ok s) eqn:Hok.
    + rewrite generate_completed by done. cbn [snd].
      change (idb (on_page enable_inputs ?x)) with (idb x).
      rewrite idb_finish. fold (flushed message s w).
      rewrite !store_after_app.
      rewrite (store_after_silent _ (segmenter_events _ _)) by apply segmenter_events_silent.
      reflexivity.
    + destruct (generate_aborted message s w Hf Hok) as [e ->]. cbn [snd].
      rewrite store_after_app.
      by rewrite (store_after_silent _ (parts_events _ _ _)) by apply parts_events_silent.
  - intros n. cbn [app take].
    change (store_after (idb w) (EvDbDelete SLIDESHOW_KEY true :: ?l))
      with (store_after (delete SLIDESHOW_KEY (idb w)) l).
    change (put_succeeded (EvDbDelete SLIDESHOW_KEY true :: ?l)) with (put_succeeded l).
    apply store_after_cleared, lookup_delete_eq.
Qed.

(** C10.  Every slide a generation appends is either the question slide,
    without image, or an answer slide with an image: the rendering of an
    [addSlide] call.  The slideshow of the page is the sequence of appended
    slides, so it never holds an answer slide without image. *)
Theorem C10_answer_slides_carry_image (message : string) (s : Stream) (w : World) :
  let evs := events_of (generate message s) w in
  let w' := (generate message s w).2 in
  Forall (λ sl, if question_slide sl then slide_img sl = None else is_Some (slide_img sl))
    (appended evs)
  ∧ appended evs =
    (if next_fault w then []
     else question_el message w
          :: (answer_slide (selectedRatio (page w)) <$> addSlide_calls evs))
  ∧ slideshow (page w') = (if next_fault w then slideshow (page w) else appended evs).
Proof.
  intros evs w'.
  assert (Happ : appended evs =
    (if next_fault w then []
     else question_el message w
          :: (answer_slide (selectedRatio (page w)) <$> addSlide_calls evs))
    ∧ slideshow (page w') = (if next_fault w then slideshow (page w) else appended evs)).
  { subst evs w'. rewrite events_of_generate. unfold generate_events.
    destruct (next_fault w) eqn:Hf.
    { rewrite generate_clear_failed by done. done. }
    destruct (stream_ok s) eqn:Hok.
    - rewrite generate_completed by done. cbn [snd].
      change (slideshow (page (on_page enable_inputs ?x))) with (slideshow (page x)).
      rewrite slideshow_finish, scribe_slideshow. fold (flushed message s w).
      destruct (finish_events_no_slides message (flushed message s w)) as [E1 E2].
      rewrite !appended_app, !addSlide_calls_app, E1, E2, !app_nil_r.
      rewrite segmenter_events_appended. done.
    - destruct (generate_aborted message s w Hf Hok) as [e ->]. cbn [snd].
      change (slideshow (page (on_page enable_inputs (on_page (show_error e) ?x))))
        with (slideshow (page x)).
      rewrite scribe_slideshow.
      rewrite !appended_app, !addSlide_calls_app, parts_events_appended. done. }
  destruct Happ as [Happ Hshow]. split; [|done].
  rewrite Happ. destruct (next_fault w); [constructor|].
  constructor; [done|]. apply Forall_fmap, Forall_forall. intros c _.
  simpl. by eexists.
Qed.

(** ** Restore: failure handling and round trip *)

Lemma recovered_run w :
  recovered w =
  (if next_fault w then inl (DBError "delete failed") else inr tt,
   answered (if next_fault w then idb w else delete SLIDESHOW_KEY (idb w))
     (EvDbDelete SLIDESHOW_KEY (negb (next_fault w))) (logged [load_failed] w)).
Proof.
  unfold recovered, clearDataFromDB.
  change (next_fault (logged [load_failed] w)) with (next_fault w).
  destruct (next_fault w); reflexivity.
Qed.

Lemma count_app f e1 e2 : count f (e1 ++ e2) = count f e1 + count f e2.
Proof. unfold count. by rewrite List.filter_app, length_app. Qed.

Lemma count_appends f ss :
  (∀ s, f (EvAppend s) = false) → count f (EvAppend <$> ss) = 0.
Proof.
  intros Hf. induction ss as [|s ss IH]; [done|].
  unfold count in *. simpl. by rewrite Hf.
Qed.

(** C8, amended.  The restore, by cases.  With no record stored, the get is
    the only database request: the store is not cleared, the page only
    receives the class of the current theme.  When the get is rejected, or
    a stored slide cannot be turned into an image, the failure is logged
    and the store is cleared once, the get is not repeated, and the restore
    rejects only if that clear is rejected itself; after a rejected get the
    page is as it was.  A restore that succeeds does not clear. *)
Theorem C8_restore_failure (w : World) :
  let r := loadSlideshowFromStorage w in
  let evs := events_of loadSlideshowFromStorage w in
  let ok := negb (default false (head (tail (idb_faults w)))) in
  let outcome := if ok then inr tt else inl (DBError "delete failed") in
  let store := if ok then delete SLIDESHOW_KEY (idb w) else idb w in
  count is_get evs = 1
  ∧ match load_outcome w with
    | Missing =>
        r.1 = inr tt
        ∧ evs = [EvDbGet SLIDESHOW_KEY true]
        ∧ count is_delete evs = 0
        ∧ idb r.2 = idb w
        ∧ page r.2 =
          set_className ("app-container theme-" +:+ selectedTheme (page w)) (page w)
    | GetRejected =>
        r.1 = outcome
        ∧ evs = [EvDbGet SLIDESHOW_KEY false; load_failed; EvDbDelete SLIDESHOW_KEY ok]
        ∧ count is_delete evs = 1
        ∧ idb r.2 = store
        ∧ page r.2 = page w
    | Undecodable saved =>
        r.1 = outcome
        ∧ evs = EvDbGet SLIDESHOW_KEY true
                :: (EvAppend <$> slideshow (page r.2))
                ++ [load_failed; EvDbDelete SLIDESHOW_KEY ok]
        ∧ count is_delete evs = 1
        ∧ idb r.2 = store
    | Restorable saved =>
        r.1 = inr tt ∧ count is_delete evs = 0 ∧ idb r.2 = idb w
    end.
Proof.
  intros r evs ok outcome store. subst r evs outcome store ok.
  unfold events_of. rewrite load_run.
  destruct (load_outcome w) as [| |saved|saved].
  - rewrite recovered_run.
    change (next_fault (answered ?s ?e w)) with (default false (head (tail (idb_faults w)))).
    cbn [fst snd trace answered logged idb page].
    rewrite <- !app_assoc, drop_app_length.
    destruct (default false (head (tail (idb_faults w)))); done.
  - cbn [fst snd trace answered on_page idb page].
    rewrite drop_app_length. done.
  - rewrite recovered_run.
    change (next_fault (rebuilt saved w)) with (default false (head (tail (idb_faults w)))).
    cbn [fst snd trace answered logged idb page rebuilt].
    rewrite <- !app_assoc, drop_app_length.
    set (ss := (restored _ _ _ _).1.1).
    change (slideshow (set_slideshow ss ?h ?p)) with ss.
    assert (Hd : count is_delete
              (EvDbGet SLIDESHOW_KEY true
               :: (EvAppend <$> ss)
               ++ [load_failed;
                   EvDbDelete SLIDESHOW_KEY
                     (negb (default false (head (tail (idb_faults w)))))]) = 1).
    { change (EvDbGet SLIDESHOW_KEY true :: ?l) with ([EvDbGet SLIDESHOW_KEY true] ++ l).
      rewrite !count_app, count_appends by done. reflexivity. }
    assert (Hg : count is_get
              (EvDbGet SLIDESHOW_KEY true
               :: (EvAppend <$> ss)
               ++ [load_failed;
                   EvDbDelete SLIDESHOW_KEY
                     (negb (default false (head (tail (idb_faults w)))))]) = 1).
    { change (EvDbGet SLIDESHOW_KEY true :: ?l) with ([EvDbGet SLIDESHOW_KEY true] ++ l).
      rewrite !count_app, count_appends by done. reflexivity. }
    change ((EvDbGet SLIDESHOW_KEY true :: (EvAppend <$> ss)) ++ ?l)
      with (EvDbGet SLIDESHOW_KEY true :: (EvAppend <$> ss) ++ l).
    destruct (default false (head (tail (idb_faults w)))); done.
  - cbn [fst snd trace on_page idb page rebuilt].
    rewrite drop_app_length.
    set (ss := (restored _ _ _ _).1.1).
    change (EvDbGet SLIDESHOW_KEY true :: ?l) with ([EvDbGet SLIDESHOW_KEY true] ++ l).
    rewrite !count_app, !count_appends by done. done.
Qed.

Lemma or_else_empty s : or_else s "" = s.
Proof. unfold or_else. destruct (truthy s) eqn:E; [done|]. by apply truthy_false in E. Qed.

Lemma encode_fetched w l :
  Forall (fetched w) l → encode_slides w l = Some (stored w <$> l).
Proof.
  induction 1 as [|v l Hv _ IH]; [done|].
  cbn [encode_slides]. rewrite IH, fmap_cons.
  assert (E : encode_slide w v = Some (stored w v)); [|by rewrite E].
  unfold encode_slide, stored, fetched in *. rewrite or_else_empty.
  destruct (view_img v) as [[u|id]|]; [| |done].
  - destruct u as [|a u]; [done|]. destruct Hv as [b Hb]. by rewrite Hb.
  - destruct Hv as [b Hb]. by rewrite Hb.
Qed.

Lemma stored_no_junk w l : existsb is_junk (stored w <$> l) = false.
Proof.
  induction l as [|v l IH]; [done|].
  rewrite fmap_cons. cbn [existsb]. rewrite IH, orb_false_r.
  unfold is_junk, stored. simpl.
  destruct (view_img v) as [[u|id]|]; [| |done].
  - destruct u as [|a u]; [done|]. by destruct (resolve w (SrcUrl (String a u))).
  - by destruct (resolve w (SrcObject id)).
Qed.

(** Where no caption holds a slide or an image of its own, the selectors
    see the children of [#slideshow], each with its own image. *)
Lemma slide_elements_plain l :
  Forall plain_caption l → slide_elements l = slide_view <$> l.
Proof.
  induction 1 as [|sl l [Hs _] _ IH]; [done|].
  by rewrite slide_elements_cons, Hs, IH.
Qed.

Lemma view_img_plain sl :
  plain_caption sl → view_img (slide_view sl) = src <$> slide_img sl.
Proof.
  intros [_ Hi]. unfold slide_view, slide_images. cbn [view_img].
  destruct (slide_img sl) as [i|]; [done|]. by rewrite Hi.
Qed.

Lemma storable_fetched w sl :
  storable w sl → plain_caption sl → fetched w (slide_view sl).
Proof.
  intros Hst Hp. unfold fetched. rewrite view_img_plain by done.
  unfold storable in Hst. destruct (slide_img sl) as [[i]|]; [|done].
  cbn [fmap option_fmap option_map src] in *. destruct Hst as [Hne Hb].
  by destruct i as [[|a u]|id].
Qed.

Lemma restored_spec r l urls issued :
  existsb is_junk l = false →
  urls ⊆ (restored r l urls issued).1.2
  ∧ ∀ urls', (restored r l urls issued).1.2 ⊆ urls' →
             Forall2 (restored_as urls') l (restored r l urls issued).1.1.
Proof.
  revert urls issued. induction l as [|sd l IH]; intros urls issued Hj.
  { split; [done|]. intros urls' _. constructor. }
  cbn [existsb] in Hj. apply orb_false_iff in Hj as [Hsd Hl].
  cbn [restored]. unfold is_junk in Hsd.
  destruct (imageBlob sd) as [|b|] eqn:Eb; [| |done].
  - destruct (IH urls issued Hl) as [Hsub Hall]. cbn [fst snd]. split; [done|].
    intros urls' Hu. constructor; [|by apply Hall].
    unfold restored_as. by rewrite Eb.
  - set (id := fresh (dom urls ∪ issued)).
    destruct (IH (<[id := b]> urls) ({[id]} ∪ issued) Hl) as [Hsub Hall].
    cbn [fst snd].
    assert (Hfresh : urls !! id = None).
    { apply not_elem_of_dom. intros Hin.
      apply (is_fresh (dom urls ∪ issued)). fold id.
      apply elem_of_union. by left. }
    split.
    + etrans; [|exact Hsub]. by apply insert_subseteq.
    + intros urls' Hu. constructor; [|by apply Hall].
      unfold restored_as. rewrite Eb. repeat split. exists id. split; [done|].
      eapply lookup_weaken; [|exact Hu].
      eapply lookup_weaken; [|exact Hsub]. apply lookup_insert_eq.
Qed.

Lemma all_false_next w :
  Forall (λ b, b = false) (idb_faults w) → next_fault w = false.
Proof.
  unfold next_fault. destruct (idb_faults w) as [|b f]; [done|].
  by inversion 1.
Qed.

Lemma restored_same w urls l k :
  Forall (storable w) l →
  Forall plain_caption l →
  Forall2 (λ a b, restored_as urls (stored w (slide_view a)) b) l k →
  Forall2
    (λ a b, question_slide a = question_slide b
            ∧ caption_innerHTML b = inner_html (caption_innerHTML a)
            ∧ image_blob w a =
              (λ i, match src i with
                    | SrcUrl u => fetch_url u
                    | SrcObject id => urls !! id
                    end) <$> slide_img b)
    l k.
Proof.
  intros Hst Hpl Hall.
  induction Hall as [|a b l k (Hq & Hc & Hi) _ IH]; [constructor|].
  inversion Hst as [|? ? Ha Hl]; subst.
  inversion Hpl as [|? ? Hpa Hpl']; subst.
  constructor; [|by apply IH].
  cbn [stored isQuestion text imageBlob] in Hq, Hc, Hi.
  rewrite (view_img_plain a Hpa) in Hi.
  split; [done|]. split; [done|].
  unfold image_blob, storable in *.
  destruct (slide_img a) as [[i]|].
  - cbn [fmap option_fmap option_map src] in *.
    destruct Ha as [Hne [blob Hb]]. rewrite Hb in Hi.
    destruct i as [[|c u]|n]; [done| |];
      destruct Hi as (id & -> & Hid); cbn in Hb |- *; by rewrite Hb, Hid.
  - cbn in Hi. by rewrite Hi.
Qed.


(** ** The color style is always set

    The hypothesis of the round trip on the color style holds in every
    state the program reaches: the module variable starts as ['bw'], the
    click handler assigns only a truthy [data-value], a restore assigns a
    stored value or ['bw'], and a generation does not assign it. *)

Lemma or_else_set a b : b ≠ "" → or_else a b ≠ "".
Proof.
  intros Hb. unfold or_else. destruct (truthy a) eqn:E; [by apply truthy_true|done].
Qed.

Lemma click_color_keeps_set value w :
  selectedColorStyle (page w) ≠ "" →
  selectedColorStyle (page (click_color value w).2) ≠ "".
Proof.
  intros Hw. unfold click_color.
  destruct (truthy (default "" value)) eqn:E; [|done].
  by apply truthy_true in E.
Qed.

Lemma click_theme_keeps_color value w :
  selectedColorStyle (page (click_theme value w).2) = selectedColorStyle (page w).
Proof. unfold click_theme. by destruct (truthy (default "" value)). Qed.

Lemma click_ratio_keeps_color value w :
  selectedColorStyle (page (click_ratio value w).2) = selectedColorStyle (page w).
Proof. unfold click_ratio. by destruct (truthy (default "" value)). Qed.

Lemma generate_keeps_color message s w :
  selectedColorStyle (page (generate message s w).2) = selectedColorStyle (page w).
Proof.
  destruct (next_fault w) eqn:Hf.
  { by rewrite generate_clear_failed. }
  destruct (stream_ok s) eqn:Hok.
  - rewrite generate_completed by done. cbn [snd].
    change (selectedColorStyle (page (on_page enable_inputs ?x)))
      with (selectedColorStyle (page x)).
    unfold finish. case_bool_decide; [|done]. by rewrite page_saved_world.
  - by destruct (generate_aborted message s w Hf Hok) as [e ->].
Qed.

Lemma load_keeps_color_set w :
  selectedColorStyle (page w) ≠ "" →
  selectedColorStyle (page (loadSlideshowFromStorage w).2) ≠ "".
Proof.
  intros Hw. rewrite load_run.
  destruct (load_outcome w) as [| |saved|saved].
  - by rewrite recovered_run.
  - done.
  - rewrite recovered_run. cbn [snd answered logged page rebuilt].
    change (selectedColorStyle (set_slideshow ?s ?h (restoring_page saved ?p)))
      with (or_else (colorStyle saved) "bw").
    by apply or_else_set.
  - cbn [snd on_page page rebuilt].
    change (selectedColorStyle
              (set_actions_hidden false
                 (set_slideshow ?s1 false
                    (set_slideshow ?s ?h (restoring_page saved ?p)))))
      with (or_else (colorStyle saved) "bw").
    by apply or_else_set.
Qed.

(** ** [wrapText] *)

Lemma append_assoc (a b c : string) : (a +:+ b) +:+ c = a +:+ (b +:+ c).
Proof.
  induction a as [|x a IH]; [reflexivity|].
  change (String x ((a +:+ b) +:+ c) = String x (a +:+ (b +:+ c))). by f_equal.
Qed.

Lemma split_space_cons s : ∃ w ws, split_space s = w :: ws.
Proof.
  induction s as [|c s (w & ws & E)]; [by eexists _, _|].
  cbn [split_space]. destruct (Ascii.eqb c " "); [by eexists _, _|].
  rewrite E. by eexists _, _.
Qed.

(** Joining the pieces of [split(' ')] with a space after each gives the
    text back, with one more space. *)
Lemma split_space_join s :
  concat_strings ((λ w, w +:+ " ") <$> split_space s) = s +:+ " ".
Proof.
  induction s as [|c s IH]; [reflexivity|].
  cbn [split_space]. destruct (Ascii.eqb_spec c " ") as [->|Hc].
  - rewrite fmap_cons. cbn [concat_strings foldr].
    fold (concat_strings ((λ w, w +:+ " ") <$> split_space s)). by rewrite IH.
  - destruct (split_space_cons s) as (w & ws & E). rewrite E in *.
    rewrite !fmap_cons in *. cbn [concat_strings foldr] in *.
    change (String c (s +:+ " ")) with (String c s +:+ " ") in *.
    rewrite append_assoc.
    change (String c w +:+ ?x) with (String c (w +:+ x)).
    rewrite append_assoc in IH. by rewrite IH.
Qed.

Lemma wrap_lines_concat measureText maxWidth n words line :
  concat_strings (wrap_lines measureText maxWidth n words line) =
  line +:+ concat_strings ((λ w, w +:+ " ") <$> words).
Proof.
  revert n line. induction words as [|w ws IH]; intros n line.
  - cbn. clear. induction line as [|x l IHl]; [reflexivity|].
    change (String x (l +:+ "") = String x (l +:+ "")). reflexivity.
  - cbn [wrap_lines]. rewrite fmap_cons. cbn [concat_strings foldr].
    fold (concat_strings ((λ w, w +:+ " ") <$> ws)).
    destruct (negb _ && _).
    + cbn [concat_strings foldr].
      fold (concat_strings (wrap_lines measureText maxWidth (S n) ws (w +:+ " "))).
      by rewrite IH.
    + by rewrite IH, !append_assoc.
Qed.

Lemma wrap_lines_length measureText maxWidth n words line :
  1 ≤ List.length (wrap_lines measureText maxWidth n words line)
  ∧ List.length (wrap_lines measureText maxWidth n words line)
    ≤ S (List.length words).
Proof.
  revert n line. induction words as [|w ws IH]; intros n line; [simpl; lia|].
  cbn [wrap_lines]. destruct (negb _ && _).
  - destruct (IH (S n) (w +:+ " ")). simpl. lia.
  - destruct (IH (S n) ((line +:+ w) +:+ " ")). simpl. lia.
Qed.

Lemma wrap_lines_first measureText maxWidth n words line :
  ∃ rest tl, wrap_lines measureText maxWidth n words line = (line +:+ rest) :: tl.
Proof.
  revert n line. induction words as [|w ws IH]; intros n line.
  - exists "", []. cbn. f_equal. clear.
    induction line as [|x l IHl]; [reflexivity|].
    change (String x l = String x (l +:+ "")). by f_equal.
  - cbn [wrap_lines]. destruct (negb _ && _).
    + exists "", (wrap_lines measureText maxWidth (S n) ws (w +:+ " ")). f_equal.
      clear. induction line as [|x l IHl]; [reflexivity|].
      change (String x l = String x (l +:+ "")). by f_equal.
    + destruct (IH (S n) ((line +:+ w) +:+ " ")) as (rest & tl & E).
      exists (w +:+ " " +:+ rest), tl. rewrite E. by rewrite !append_assoc.
Qed.

(** X1.  [wrapText] draws the whole text: the lines, one after the other,
    are the text followed by one space, nothing lost, repeated or
    reordered; there is at least one line (one holding a single space for
    the empty text) and never more lines than words. *)
Theorem X1_wrapText_draws_text (measureText : string → QArith_base.Q)
    (text : string) (maxWidth : QArith_base.Q) :
  concat_strings (wrapText measureText text maxWidth) = text +:+ " "
  ∧ 1 ≤ List.length (wrapText measureText text maxWidth)
  ∧ List.length (wrapText measureText text maxWidth) ≤ List.length (split_space text)
  ∧ wrapText measureText "" maxWidth = [" "].
Proof.
  unfold wrapText. split; [|split; [|split]].
  - rewrite wrap_lines_concat. change ("" +:+ ?x) with x. apply split_space_join.
  - apply wrap_lines_length.
  - destruct (split_space_cons text) as (w & ws & ->).
    cbn [wrap_lines]. rewrite andb_false_r.
    destruct (wrap_lines_length measureText maxWidth 1 ws (("" +:+ w) +:+ " ")).
    simpl. lia.
  - cbn [split_space wrap_lines]. by rewrite andb_false_r.
Qed.

Lemma wrap_lines_fit measureText maxWidth (all : list string) n words line :
  Forall (λ w, w ∈ all) words →
  ((∃ w, w ∈ all ∧ line = w +:+ " ")
   ∨ QArith_base.Qle (measureText line) maxWidth) →
  Forall (λ l, (∃ w, w ∈ all ∧ l = w +:+ " ")
               ∨ QArith_base.Qle (measureText l) maxWidth)
    (wrap_lines measureText maxWidth (S n) words line).
Proof.
  revert n line. induction words as [|w ws IH]; intros n line Hall Hline.
  - by constructor.
  - inversion Hall as [|? ? Hw Hws]; subst. cbn [wrap_lines].
    destruct (QArith_base.Qle_bool (measureText ((line +:+ w) +:+ " ")) maxWidth) eqn:E.
    + cbn [negb andb]. apply IH; [done|]. right. by apply QArith_base.Qle_bool_iff.
    + rewrite bool_decide_eq_true_2 by lia. cbn [negb andb].
      constructor; [done|]. apply IH; [done|]. left. by exists w.
Qed.

(** X2.  Every line [wrapText] draws either fits, its measured width being
    at most [maxWidth], or consists of a single word (followed by its
    space): only a word too long on its own overflows. *)
Theorem X2_wrapText_lines_fit (measureText : string → QArith_base.Q)
    (text : string) (maxWidth : QArith_base.Q) :
  Forall (λ l, (∃ w, w ∈ split_space text ∧ l = w +:+ " ")
               ∨ QArith_base.Qle (measureText l) maxWidth)
    (wrapText measureText text maxWidth).
Proof.
  unfold wrapText.
  assert (Hall : Forall (λ w, w ∈ split_space text) (split_space text)).
  { apply Forall_forall. auto. }
  revert Hall. generalize (split_space text) at 1 3 as all. intros all.
  destruct (split_space_cons text) as (w & ws & ->). intros Hall.
  inversion Hall as [|? ? Hw Hws]; subst.
  cbn [wrap_lines]. rewrite andb_false_r.
  apply wrap_lines_fit; [done|]. left. by exists w.
Qed.

Lemma wrap_lines_forced measureText maxWidth n words line k l1 l2 :
  wrap_lines measureText maxWidth n words line !! k = Some l1 →
  wrap_lines measureText maxWidth n words line !! S k = Some l2 →
  ∃ w rest, w ∈ words
            ∧ l2 = (w +:+ " ") +:+ rest
            ∧ QArith_base.Qlt maxWidth (measureText ((l1 +:+ w) +:+ " ")).
Proof.
  revert n line k. induction words as [|w ws IH]; intros n line k H1 H2.
  - by destruct k.
  - assert (Hrec : ∀ n line k,
              wrap_lines measureText maxWidth n ws line !! k = Some l1 →
              wrap_lines measureText maxWidth n ws line !! S k = Some l2 →
              ∃ w0 rest, w0 ∈ w :: ws
                         ∧ l2 = (w0 +:+ " ") +:+ rest
                         ∧ QArith_base.Qlt maxWidth (measureText ((l1 +:+ w0) +:+ " "))).
    { intros n' line' k' G1 G2.
      destruct (IH n' line' k' G1 G2) as (w0 & rest & Hin & Hrest).
      exists w0, rest. split; [by right | done]. }
    cbn [wrap_lines] in H1, H2.
    destruct (QArith_base.Qle_bool (measureText ((line +:+ w) +:+ " ")) maxWidth) eqn:E;
      cbn [negb andb] in H1, H2; [by eapply Hrec|].
    case_bool_decide; [|by eapply Hrec].
    destruct k as [|k]; [|by eapply Hrec].
    simpl in H1, H2. injection H1 as <-.
    destruct (wrap_lines_first measureText maxWidth (S n) ws (w +:+ " "))
      as (rest & tl & Ew).
    rewrite Ew in H2. simpl in H2. injection H2 as <-.
    exists w, rest. split; [by left|]. split; [done|].
    apply QArith_base.Qnot_le_lt. intros Hle.
    apply QArith_base.Qle_bool_iff in Hle. congruence.
Qed.

(** The pieces [split] gives hold no space. *)
Lemma split_space_words s : Forall (λ w, first_word w = w) (split_space s).
Proof.
  induction s as [|c s IH]; [by repeat constructor|].
  cbn [split_space]. destruct (Ascii.eqb c " ") eqn:E; [by constructor|].
  destruct (split_space_cons s) as (w & ws & Es). rewrite Es in *.
  inversion IH as [|? ? Hw Hws]; subst. constructor; [|done].
  cbn [first_word]. by rewrite E, Hw.
Qed.

Lemma first_word_app w rest :
  first_word w = w → first_word ((w +:+ " ") +:+ rest) = w.
Proof.
  induction w as [|c w IH]; intros Hw; [done|].
  change ((String c w +:+ " ") +:+ rest) with (String c ((w +:+ " ") +:+ rest)).
  cbn [first_word] in *. destruct (Ascii.eqb c " "); [done|].
  injection Hw as Hw. by rewrite IH.
Qed.

(** X3.  [wrapText] breaks a line only when it has to: of two lines drawn
    one after the other, the second starts with a word of the text followed
    by a space, and the first with that first word of the second added is
    wider than [maxWidth]. *)
Theorem X3_wrapText_breaks_forced (measureText : string → QArith_base.Q)
    (text : string) (maxWidth : QArith_base.Q) (k : nat) (l1 l2 : string) :
  wrapText measureText text maxWidth !! k = Some l1 →
  wrapText measureText text maxWidth !! S k = Some l2 →
  (∃ rest, l2 = (first_word l2 +:+ " ") +:+ rest)
  ∧ first_word l2 ∈ split_space text
  ∧ QArith_base.Qlt maxWidth (measureText ((l1 +:+ first_word l2) +:+ " ")).
Proof.
  intros H1 H2.
  destruct (wrap_lines_forced _ _ _ _ _ _ _ _ H1 H2) as (w & rest & Hin & -> & Hlt).
  pose proof (split_space_words text) as Hall. rewrite Forall_forall in Hall.
  rewrite (first_word_app w rest) by (by apply Hall).
  split; [by exists rest|]. by split.
Qed.

(** ** Saving, and the page after a generation *)

Lemma encode_slides_inv w l saved :
  encode_slides w l = Some saved →
  saved = stored w <$> l ∧ Forall (fetched w) l.
Proof.
  revert saved. induction l as [|v l IH]; intros saved E.
  { injection E as <-. by split. }
  cbn [encode_slides] in E.
  destruct (encode_slide w v) as [x|] eqn:Ev; [|done].
  destruct (encode_slides w l) as [xs|]; [|done].
  injection E as <-. destruct (IH xs eq_refl) as [-> Hl].
  assert (Hv : x = stored w v ∧ fetched w v).
  { unfold encode_slide, stored, fetched in *. rewrite or_else_empty in Ev.
    destruct (view_img v) as [[u|id]|].
    - destruct u as [|a u]; [by injection Ev as <-|].
      destruct (resolve w (SrcUrl (String a u))) as [b|]; [|done].
      injection Ev as <-. split; [done | by eexists].
    - destruct (resolve w (SrcObject id)) as [b|]; [|done].
      injection Ev as <-. split; [done | by eexists].
    - by injection Ev as <-. }
  destruct Hv as [-> Hv]. split; [done | by constructor].
Qed.

(** X5.  [saveSlideshowToStorage] absorbs its failures: it always returns
    normally and leaves the page and the object URLs as they were.  The
    store changes only when the put went through; every element of class
    [slide] under [#slideshow] then had its first image fetched, and the
    store holds under the single key the question, the three settings and
    the stored forms of these elements, in document order.  With more than
    one such element, when an image does not resolve or the put is
    rejected, exactly one error is logged and the store is as before. *)
Theorem X5_save_absorbs_failures (question : string) (w : World) :
  let r := saveSlideshowToStorage question w in
  let evs := events_of (saveSlideshowToStorage question) w in
  let elements := slide_elements (slideshow (page w)) in
  r.1 = inr tt
  ∧ page r.2 = page w
  ∧ objectURLs r.2 = objectURLs w
  ∧ (if put_succeeded evs then
       Forall (fetched w) elements
       ∧ idb r.2 =
         <[SLIDESHOW_KEY := snapshot question w (stored w <$> elements)]> (idb w)
     else idb r.2 = idb w)
  ∧ count is_console_error evs =
    (if put_succeeded evs || bool_decide (List.length elements ≤ 1)
     then 0 else 1).
Proof.
  intros r evs elements. subst r evs elements.
  rewrite (events_of_trace _ w (save_events question w))
    by (rewrite saveSlideshowToStorage_run; apply trace_saved_world).
  rewrite saveSlideshowToStorage_run. cbn [fst snd].
  rewrite page_saved_world, objectURLs_saved_world.
  split; [done|]. split; [done|]. split; [done|].
  unfold saved_world, save_events. case_bool_decide as Hlen.
  { split; [done|]. by rewrite orb_true_r. }
  rewrite orb_false_r.
  destruct (encode_slides w (slide_elements (slideshow (page w)))) as [saved|] eqn:E;
    [|done].
  destruct (encode_slides_inv _ _ _ E) as [-> Hall].
  destruct (next_fault w); [done|]. by split.
Qed.

Lemma page_finish message w :
  page (finish message w) =
  if bool_decide (1 < List.length (slideshow (page w)))
  then set_actions_hidden false (page w) else page w.
Proof.
  unfold finish. case_bool_decide; [|done]. by rewrite page_saved_world.
Qed.


(** ** What the segmenter keeps of the stream *)

Lemma append_empty_r (s : string) : s +:+ "" = s.
Proof.
  induction s as [|x s IH]; [reflexivity|].
  change (String x (s +:+ "") = String x s). by f_equal.
Qed.

Lemma concat_strings_app l1 l2 :
  concat_strings (l1 ++ l2) = concat_strings l1 +:+ concat_strings l2.
Proof.
  induction l1 as [|x l1 IH]; [reflexivity|].
  cbn [app concat_strings foldr]. fold (concat_strings (l1 ++ l2)).
  fold (concat_strings l1). by rewrite IH, append_assoc.
Qed.

Lemma absorb_text part acc :
  (absorb part acc).1 = acc.1 +:+ default "" (part_text part).
Proof.
  unfold absorb. destruct (truthy (default "" (part_text part))) eqn:E; [done|].
  apply truthy_false in E. rewrite E, append_empty_r. by destruct (inlineData part).
Qed.

Lemma completes_caption acc c : completes acc = Some c → c.1 = acc.1.
Proof.
  unfold completes. destruct acc.2; [|done]. destruct (truthy acc.1); [|done].
  by intros [= <-].
Qed.

Lemma part_events_calls r part acc :
  addSlide_calls (part_events r part acc) = option_list (completes (absorb part acc)).
Proof.
  unfold part_events.
  destruct (unrecognized part), (completes (absorb part acc)) as [[c i]|]; reflexivity.
Qed.

Lemma parts_text_conserved r ps acc :
  concat_strings (fst <$> addSlide_calls (parts_events r ps acc))
  +:+ (parts_acc ps acc).1
  = acc.1 +:+ part_texts ps.
Proof.
  revert acc. induction ps as [|p ps IH]; intros acc.
  - cbn. by rewrite append_empty_r.
  - cbn [parts_events parts_acc].
    change (part_texts (p :: ps)) with (default "" (part_text p) +:+ part_texts ps).
    rewrite addSlide_calls_app, fmap_app, concat_strings_app, part_events_calls.
    rewrite append_assoc, IH, <- !append_assoc. f_equal.
    rewrite <- absorb_text. unfold part_acc.
    destruct (completes (absorb p acc)) as [c|] eqn:E; [|done].
    cbn. by rewrite (completes_caption _ _ E), !append_empty_r.
Qed.

(** X7.  The segmenter loses no text before the end of the stream: for a
    stream that completes, the captions passed to [addSlide], one after the
    other, followed by the text still pending when the loop ends, are the
    text of all parts in order.  The pending text is the only text that
    reaches no slide, and it is empty whenever an image is pending. *)
Theorem X7_text_conserved (s : Stream) (w : World) :
  stream_ok s = true →
  ∃ pending,
    (generate_stream s ("", None) w).1 = inr pending
    ∧ concat_strings (fst <$> addSlide_calls (events_of (segmenter s) w)) +:+ pending.1
      = part_texts (stream_parts s)
    ∧ match pending.2 with Some _ => pending.1 = "" | None => True end.
Proof.
  intros Hok. exists (parts_acc (stream_parts s) ("", None)).
  destruct (generate_stream_spec s ("", None) w) as (res & E & R).
  rewrite Hok in R. rewrite E, R. split; [done|].
  assert (Hset : completes (parts_acc (stream_parts s) ("", None)) = None)
    by by apply parts_acc_settled.
  assert (Hpend : match (parts_acc (stream_parts s) ("", None)).2 with
                  | Some _ => (parts_acc (stream_parts s) ("", None)).1 = ""
                  | None => True
                  end).
  { unfold completes in Hset.
    destruct (parts_acc (stream_parts s) ("", None)).2; [|done].
    destruct (truthy _) eqn:Et; [done|]. by apply truthy_false. }
  split; [|exact Hpend].
  rewrite segmenter_calls by done. unfold segmenter_events.
  rewrite addSlide_calls_app, fmap_app, concat_strings_app.
  assert (Hflush : concat_strings
            (fst <$> addSlide_calls
               (flush_events (selectedRatio (page w))
                  (parts_acc (stream_parts s) ("", None)))) = "").
  { unfold flush_events.
    destruct (parts_acc (stream_parts s) ("", None)).2; [|done].
    cbn. by rewrite Hpend. }
  rewrite Hflush, append_empty_r.
  apply (parts_text_conserved _ _ ("", None)).
Qed.

Lemma part_images_cons p ps :
  part_images (p :: ps) =
  option_list (if truthy (default "" (part_text p)) then None
               else img_of <$> inlineData p)
  ++ part_images ps.
Proof.
  unfold part_images. cbn [omap list_omap].
  by destruct (if truthy (default "" (part_text p)) then None
               else img_of <$> inlineData p).
Qed.

Lemma parts_images_sublist r ps acc :
  (snd <$> addSlide_calls (parts_events r ps acc)) ++ option_list (parts_acc ps acc).2
  `sublist_of` option_list acc.2 ++ part_images ps.
Proof.
  revert acc. induction ps as [|p ps IH]; intros acc.
  - cbn. by rewrite app_nil_r.
  - cbn [parts_events parts_acc].
    rewrite addSlide_calls_app, fmap_app, part_events_calls, <- app_assoc.
    rewrite part_images_cons.
    unfold part_acc, absorb, completes.
    destruct acc as [t i]. cbn [fst snd].
    destruct (truthy (default "" (part_text p))) eqn:Et; cbn [fst snd].
    + destruct i as [img|]; cbn [option_list app fmap list_fmap].
      * rewrite (truthy_app_r t _ Et). cbn [option_list fmap list_fmap snd app].
        apply sublist_skip, (IH ("", None)).
      * apply (IH (t +:+ default "" (part_text p), None)).
    + destruct (inlineData p) as [d|]; cbn [fst snd fmap option_fmap option_map].
      * apply sublist_inserts_l.
        destruct (truthy t); cbn [option_list fmap list_fmap snd app].
        -- apply sublist_skip, (IH ("", None)).
        -- apply (IH (t, Some (img_of d))).
      * destruct i as [img|]; cbn [option_list app].
        -- destruct (truthy t); cbn [option_list fmap list_fmap snd app].
           ++ apply sublist_skip, (IH ("", None)).
           ++ apply (IH (t, Some img)).
        -- apply (IH (t, None)).
Qed.

Lemma flush_events_calls r acc :
  snd <$> addSlide_calls (flush_events r acc) = option_list acc.2.
Proof. unfold flush_events. by destruct acc.2. Qed.

Lemma generate_calls message s w :
  addSlide_calls (events_of (generate message s) w) =
  if next_fault w then []
  else if stream_ok s
       then addSlide_calls (segmenter_events (selectedRatio (page w)) (stream_parts s))
       else addSlide_calls (parts_events (selectedRatio (page w)) (stream_parts s) ("", None)).
Proof.
  rewrite events_of_generate. unfold generate_events.
  destruct (next_fault w); [done|].
  rewrite addSlide_calls_app.
  assert (E : ∀ k ok q, addSlide_calls [EvDbDelete k ok; EvAppend q; EvStreamOpen] = [])
    by done.
  rewrite E. cbn [app].
  destruct (stream_ok s); [|done].
  rewrite addSlide_calls_app.
  by rewrite (proj2 (finish_events_no_slides message (flushed message s w))), app_nil_r.
Qed.

Lemma generate_images_sublist message s w :
  (snd <$> addSlide_calls (events_of (generate message s) w))
  `sublist_of` part_images (stream_parts s).
Proof.
  rewrite generate_calls.
  destruct (next_fault w); [apply sublist_nil_l|].
  destruct (stream_ok s).
  - unfold segmenter_events. rewrite addSlide_calls_app, fmap_app, flush_events_calls.
    apply (parts_images_sublist _ _ ("", None)).
  - etrans; [|apply (parts_images_sublist (selectedRatio (page w)) _ ("", None))].
    apply sublist_inserts_r. reflexivity.
Qed.

(** X8.  The images of the slides a generation emits are a subsequence of
    the images received: every slide shows an image built from an image
    part of the stream, in the order of arrival, no image is shown twice,
    and there are never more slides than image parts. *)
Theorem X8_images_subsequence (message : string) (s : Stream) (w : World) :
  let calls := addSlide_calls (events_of (generate message s) w) in
  (snd <$> calls) `sublist_of` part_images (stream_parts s)
  ∧ List.length calls ≤ List.length (part_images (stream_parts s)).
Proof.
  intros calls. split; [apply generate_images_sublist|].
  rewrite <- (length_fmap snd calls).
  apply sublist_length, generate_images_sublist.
Qed.

Lemma for_of_app {A S} (l1 l2 : list A) (body : A → S → M S) (st : S) (w : World) :
  for_of (l1 ++ l2) body st w =
  match for_of l1 body st w with
  | (inr st', w') => for_of l2 body st' w'
  | (inl e, w') => (inl e, w')
  end.
Proof.
  revert st w. induction l1 as [|x l1 IH]; intros st w; [reflexivity|].
  cbn [app for_of]. unfold mbind, M_bind.
  destruct (body x st w) as [[e|st'] w']; [reflexivity | apply IH].
Qed.

(** X9.  A candidate whose content has no [parts] is passed over: the
    loop over the candidates of a chunk gives the same result with or
    without it.  A candidate without [content] ends the loop with a
    [TypeError]: the candidates after it are never looked at, and the state
    is the one reached by the candidates before it. *)
Theorem X9_candidate_without_parts_or_content
    (before after : list Candidate) (acc : Acc) (w : World) :
  for_of (before ++ mkCandidate (Some (mkContent None)) :: after) generate_candidate acc w
  = for_of (before ++ after) generate_candidate acc w
  ∧ ∃ m, for_of (before ++ mkCandidate None :: after) generate_candidate acc w
         = (inl (TypeError m), (for_of before generate_candidate acc w).2).
Proof.
  split.
  - rewrite !for_of_app.
    destruct (for_of before generate_candidate acc w) as [[e|acc'] w']; [done|].
    cbn [for_of]. unfold mbind at 1, M_bind at 1, generate_candidate at 1.
    cbn. reflexivity.
  - rewrite for_of_app.
    destruct (candidates_run_spec before acc w) as (res & E & R). rewrite E.
    destruct (candidates_run before).2.
    + subst res. cbn. eauto.
    + destruct R as [m ->]. cbn. eauto.
Qed.

(** ** Restored object URLs, selector lists, downloads *)

Lemma restored_ids r l urls issued :
  NoDup (object_ids (restored r l urls issued).1.1)
  ∧ Forall (λ id, urls !! id = None ∧ id ∉ issued)
      (object_ids (restored r l urls issued).1.1).
Proof.
  revert urls issued. induction l as [|sd l IH]; intros urls issued.
  { split; constructor. }
  cbn [restored]. destruct (imageBlob sd) as [|b|].
  - cbn [fst snd]. apply (IH urls issued).
  - set (id := fresh (dom urls ∪ issued)). cbn [fst snd].
    destruct (IH (<[id := b]> urls) ({[id]} ∪ issued)) as [Hnd Hnew].
    change (object_ids (?sl :: ?rest)) with (id :: object_ids rest).
    assert (Hfresh : id ∉ dom urls ∪ issued) by apply is_fresh.
    apply not_elem_of_union in Hfresh as [Hu Hi].
    split.
    + constructor; [|done]. intros Hin.
      rewrite Forall_forall in Hnew. destruct (Hnew id Hin) as [_ Hid].
      apply Hid, elem_of_union. left. by apply elem_of_singleton.
    + constructor; [by split; [apply not_elem_of_dom|]|].
      eapply Forall_impl; [exact Hnew|].
      intros i [Hi1 Hi2]. cbn in Hi1. apply lookup_insert_None in Hi1 as [? _].
      split; [done|]. intros Hin. apply Hi2, elem_of_union. by right.
  - split; constructor.
Qed.

(** The rebuild loop records the object URLs it hands out. *)
Lemma restored_issued_spec r l urls issued :
  issued ⊆ restored_issued l urls issued
  ∧ Forall (λ id, id ∈ restored_issued l urls issued)
      (object_ids (restored r l urls issued).1.1).
Proof.
  revert urls issued. induction l as [|sd l IH]; intros urls issued.
  { split; [done | constructor]. }
  cbn [restored restored_issued]. destruct (imageBlob sd) as [|b|].
  - cbn [fst snd]. apply (IH urls issued).
  - set (id := fresh (dom urls ∪ issued)). cbn [fst snd].
    destruct (IH (<[id := b]> urls) ({[id]} ∪ issued)) as [Hsub Hids].
    change (object_ids (?sl :: ?rest)) with (id :: object_ids rest).
    split.
    + etrans; [|exact Hsub]. apply union_subseteq_r.
    + constructor; [|done]. apply Hsub, elem_of_union. left.
      by apply elem_of_singleton.
  - split; [done | constructor].
Qed.

(** X11.  A restore of a stored record whose images are blobs gives every
    restored image an object URL of its own: the URLs are pairwise
    distinct, none was registered before, the ones registered before are
    kept, and each is registered for the blob of its slide.  The slides
    come back in the number and order of the stored ones, the slideshow and
    the actions are shown. *)
Theorem X11_restore_fresh_urls (w : World) (saved : SavedSlideshow) :
  next_fault w = false →
  idb w !! SLIDESHOW_KEY = Some saved →
  existsb is_junk (slides saved) = false →
  let r := loadSlideshowFromStorage w in
  r.1 = inr tt
  ∧ NoDup (object_ids (slideshow (page r.2)))
  ∧ Forall (λ id, objectURLs w !! id = None) (object_ids (slideshow (page r.2)))
  ∧ objectURLs w ⊆ objectURLs r.2
  ∧ Forall2 (restored_as (objectURLs r.2)) (slides saved) (slideshow (page r.2))
  ∧ slideshow_hidden (page r.2) = false
  ∧ actionsContainer_hidden (page r.2) = false.
Proof.
  intros Hf Hs Hj r.
  assert (Hout : load_outcome w = Restorable saved).
  { unfold load_outcome. by rewrite Hf, Hs, Hj. }
  subst r. rewrite load_run, Hout. cbn [fst snd].
  change (slideshow (page (on_page ?f (on_page ?g (rebuilt saved w)))))
    with (restored (or_else (ratio saved) "1-1") (slides saved) (objectURLs w)
            (issuedURLs w)).1.1.
  change (objectURLs (on_page ?f (on_page ?g (rebuilt saved w))))
    with (restored (or_else (ratio saved) "1-1") (slides saved) (objectURLs w)
            (issuedURLs w)).1.2.
  destruct (restored_ids (or_else (ratio saved) "1-1") (slides saved) (objectURLs w)
              (issuedURLs w)) as [Hnd Hnew].
  destruct (restored_spec (or_else (ratio saved) "1-1") (slides saved) (objectURLs w)
              (issuedURLs w) Hj) as [Hsub Hall].
  split; [done|]. split; [done|].
  split; [by eapply Forall_impl; [exact Hnew|]; intros ? [? _]|].
  split; [done|]. split; [by apply Hall|]. done.
Qed.

Lemma marks_update menu value : marks (updateMenuListSelection menu value) value.
Proof.
  unfold marks, updateMenuListSelection. apply Forall_fmap, Forall_forall.
  by intros item _.
Qed.

(** A restore that reads a record sets the selector lists and the class
    after the settings it restores, whatever they showed before. *)
Lemma load_sets_menus w saved :
  next_fault w = false →
  idb w !! SLIDESHOW_KEY = Some saved →
  menus_agree (page (loadSlideshowFromStorage w).2).
Proof.
  intros Hf Hs. rewrite load_run. unfold load_outcome. rewrite Hf, Hs.
  assert (Hp : menus_agree (restoring_page saved (page w))).
  { unfold menus_agree, restoring_page. cbn. repeat split; apply marks_update. }
  destruct (existsb is_junk (slides saved)).
  - rewrite recovered_run. exact Hp.
  - exact Hp.
Qed.

Lemma generate_keeps_settings message s w :
  let p' := page (generate message s w).2 in
  selectedTheme p' = selectedTheme (page w)
  ∧ selectedRatio p' = selectedRatio (page w)
  ∧ selectedColorStyle p' = selectedColorStyle (page w)
  ∧ themeSelector p' = themeSelector (page w)
  ∧ ratioSelector p' = ratioSelector (page w)
  ∧ colorSelector p' = colorSelector (page w)
  ∧ appContainer_className p' = appContainer_className (page w).
Proof.
  destruct (next_fault w) eqn:Hf.
  { by rewrite generate_clear_failed. }
  destruct (stream_ok s) eqn:Hok.
  - rewrite generate_completed by done. cbn [snd on_page page].
    rewrite page_finish. by case_bool_decide.
  - by destruct (generate_aborted message s w Hf Hok) as [e ->].
Qed.

(** X12.  The selector lists and the class of the app container keep
    showing the three settings: if they agree with the module variables,
    they still do after a click on any of the three lists (whatever the
    clicked item carries), after a generation and after a restore. *)
Theorem X12_menus_agree (w : World) (value : option string) (message : string) (s : Stream) :
  menus_agree (page w) →
  menus_agree (page (click_theme value w).2)
  ∧ menus_agree (page (click_ratio value w).2)
  ∧ menus_agree (page (click_color value w).2)
  ∧ menus_agree (page (generate message s w).2)
  ∧ menus_agree (page (loadSlideshowFromStorage w).2).
Proof.
  intros (Ht & Hr & Hc & Hn).
  split; [|split; [|split; [|split]]].
  - unfold click_theme. destruct (truthy (default "" value)); [|done].
    cbn. repeat split; [apply marks_update | done..].
  - unfold click_ratio. destruct (truthy (default "" value)); [|done].
    cbn. repeat split; [done | apply marks_update | done..].
  - unfold click_color. destruct (truthy (default "" value)); [|done].
    cbn. repeat split; [done | done | apply marks_update | done].
  - destruct (generate_keeps_settings message s w)
      as (E1 & E2 & E3 & E4 & E5 & E6 & E7).
    unfold menus_agree. by rewrite E1, E2, E3, E4, E5, E6, E7.
  - destruct (next_fault w) eqn:Hf.
    { rewrite load_run. unfold load_outcome. rewrite Hf, recovered_run. done. }
    destruct (idb w !! SLIDESHOW_KEY) as [saved|] eqn:Hs.
    { by eapply load_sets_menus. }
    rewrite load_run. unfold load_outcome. rewrite Hf, Hs. done.
Qed.

Lemma string_length_app (a b : string) :
  String.length (a +:+ b) = String.length a + String.length b.
Proof.
  induction a as [|x a IH]; [reflexivity|].
  change (S (String.length (a +:+ b)) = S (String.length a + String.length b)).
  by rewrite IH.
Qed.

Lemma append_inj_l (a b s : string) : a +:+ s = b +:+ s → a = b.
Proof.
  revert b. induction a as [|x a IH]; intros [|y b] E.
  - done.
  - apply (f_equal String.length) in E.
    rewrite !string_length_app in E. cbn [String.length] in E. lia.
  - apply (f_equal String.length) in E.
    rewrite !string_length_app in E. cbn [String.length] in E. lia.
  - change (String x (a +:+ s) = String y (b +:+ s)) in E.
    injection E as -> E. f_equal. by apply IH.
Qed.

Lemma download_names_NoDup p : NoDup (snd <$> download_click p).
Proof.
  unfold download_click. rewrite fmap_imap. apply NoDup_alt.
  intros i j name Hi Hj. rewrite list_lookup_imap in Hi, Hj.
  destruct ((slideshow p ≫= slide_images) !! i) as [a|]; [|done].
  destruct ((slideshow p ≫= slide_images) !! j) as [b|]; [|done].
  cbn in Hi, Hj. injection Hi as <-. injection Hj as Hj.
  change (pretty (j + 1) +:+ ".png" = pretty (i + 1) +:+ ".png") in Hj.
  apply append_inj_l in Hj. apply (inj pretty) in Hj. lia.
Qed.

(** The images under an answer slide: the image passed to [addSlide], then
    those of the caption. *)
Lemma answer_images r calls :
  (answer_slide r <$> calls) ≫= slide_images =
  calls ≫= λ c, c.2 :: inner_imgs (marked_parse c.1).
Proof.
  induction calls as [|c calls IH]; [done|].
  by rewrite fmap_cons, !bind_cons, IH.
Qed.

Lemma bind_singletons {A B} (f : A → B) (g : A → list B) (l : list A) :
  Forall (λ x, g x = []) l → l ≫= (λ x, f x :: g x) = f <$> l.
Proof.
  induction 1 as [|x l Hx _ IH]; [done|].
  by rewrite bind_cons, fmap_cons, Hx, IH.
Qed.

Lemma bind_cons_length {A B} (f : A → B) (g : A → list B) (l : list A) :
  List.length l ≤ List.length (l ≫= λ x, f x :: g x).
Proof.
  induction l as [|x l IH]; [done|].
  rewrite bind_cons. cbn [List.length app]. rewrite length_app. lia.
Qed.

Lemma generate_slideshow message s w :
  next_fault w = false →
  slideshow (page (generate message s w).2) =
  question_el message w
  :: (answer_slide (selectedRatio (page w))
        <$> addSlide_calls (events_of (generate message s) w)).
Proof.
  intros Hf. rewrite generate_calls, Hf.
  destruct (stream_ok s) eqn:Hok.
  - rewrite generate_completed by done. cbn [snd].
    change (slideshow (page (on_page enable_inputs ?x))) with (slideshow (page x)).
    rewrite slideshow_finish, scribe_slideshow.
    by rewrite segmenter_events_appended.
  - destruct (generate_aborted message s w Hf Hok) as [e ->]. cbn [snd].
    change (slideshow (page (on_page enable_inputs (on_page (show_error e) ?x))))
      with (slideshow (page x)).
    rewrite scribe_slideshow. by rewrite parts_events_appended.
Qed.

(** X13.  After a generation, a click on the download button offers a file
    for every [<img>] under [#slideshow], in document order: the images in
    the caption of the question slide, then for each [addSlide] call its
    image followed by the images in its caption.  The k-th file, counted
    from 1, has the name [explanation-slide-k.png]; no two files have the
    same name, and there is at least one file for each answer slide.  When
    no caption holds an image, the files are the images of the [addSlide]
    calls, one for each answer slide and none for the question slide. *)
Theorem X13_downloads_after_generation (message : string) (s : Stream) (w : World) :
  next_fault w = false →
  let calls := addSlide_calls (events_of (generate message s) w) in
  let files := download_click (page (generate message s w).2) in
  let name k := "explanation-slide-" +:+ pretty (k + 1) +:+ ".png" in
  files =
    imap (λ k i, (src i, name k))
      (inner_imgs (caption_innerHTML (question_el message w))
       ++ (calls ≫= λ c, c.2 :: inner_imgs (marked_parse c.1)))
  ∧ NoDup (snd <$> files)
  ∧ List.length calls ≤ List.length files
  ∧ (inner_imgs (caption_innerHTML (question_el message w)) = [] →
     Forall (λ c, inner_imgs (marked_parse c.1) = []) calls →
     files = imap (λ k c, (src c.2, name k)) calls).
Proof.
  intros Hf calls files name.
  assert (E : files =
    imap (λ k i, (src i, name k))
      (inner_imgs (caption_innerHTML (question_el message w))
       ++ (calls ≫= λ c, c.2 :: inner_imgs (marked_parse c.1)))).
  { subst files. unfold download_click. rewrite generate_slideshow by done.
    by rewrite bind_cons, answer_images. }
  split; [exact E|]. split; [apply download_names_NoDup|]. split.
  - rewrite E, length_imap, length_app.
    pose proof (bind_cons_length snd (λ c, inner_imgs (marked_parse c.1)) calls).
    lia.
  - intros Hq Hc. rewrite E, Hq. cbn [app].
    rewrite (bind_singletons snd (λ c, inner_imgs (marked_parse c.1)) calls Hc).
    by rewrite imap_fmap.
Qed.

(** ** The snapshot a generation writes *)

Lemma stored_ext w1 w2 v :
  objectURLs w1 = objectURLs w2 → stored w1 v = stored w2 v.
Proof. intros E. unfold stored, resolve. by rewrite E. Qed.

Lemma fetched_ext w1 w2 v :
  objectURLs w1 = objectURLs w2 → fetched w1 v → fetched w2 v.
Proof. intros E. unfold fetched, resolve. by rewrite E. Qed.

(** X10.  Whatever a generation leaves in the store is the snapshot of
    what the selectors find in the page.  If, the initial clear having
    succeeded, a record is stored when [generate] returns, then the stream
    completed, the page shows more than the question slide, the record
    holds the question asked and the three settings, and its slides are the
    stored forms of the elements of class [slide] under [#slideshow], in
    document order: for each its role, the markup read back from its
    caption and the blob its first image resolves to.  Every such image
    did resolve, and there is at least one stored slide for each slide
    shown. *)
Theorem X10_snapshot_of_generation
    (message : string) (s : Stream) (w : World) (rec : SavedSlideshow) :
  next_fault w = false →
  idb (generate message s w).2 !! SLIDESHOW_KEY = Some rec →
  let w' := (generate message s w).2 in
  let elements := slide_elements (slideshow (page w')) in
  stream_ok s = true
  ∧ 1 < List.length (slideshow (page w'))
  ∧ rec = mkSavedSlideshow message (selectedTheme (page w)) (selectedRatio (page w))
            (selectedColorStyle (page w)) (stored w' <$> elements)
  ∧ Forall (fetched w') elements
  ∧ List.length (slideshow (page w')) ≤ List.length (slides rec).
Proof.
  intros Hf Hrec w' elements.
  assert (Hmain : stream_ok s = true
    ∧ 1 < List.length (slideshow (page w'))
    ∧ rec = mkSavedSlideshow message (selectedTheme (page w)) (selectedRatio (page w))
              (selectedColorStyle (page w)) (stored w' <$> elements)
    ∧ Forall (fetched w') elements).
  { subst elements. revert Hrec. subst w'.
    destruct (stream_ok s) eqn:Hok.
    2:{ destruct (generate_aborted message s w Hf Hok) as [e ->]. cbn [snd].
        intros Hrec.
        change (idb (on_page enable_inputs (on_page (show_error e) (scribe ?evs ?x))))
          with (idb x) in Hrec.
        unfold started in Hrec. cbn [idb] in Hrec. by rewrite lookup_delete_eq in Hrec. }
    rewrite generate_completed by done. cbn [snd].
    fold (flushed message s w).
    set (FL := flushed message s w).
    change (idb (on_page enable_inputs ?x)) with (idb x).
    change (slideshow (page (on_page enable_inputs ?x))) with (slideshow (page x)).
    rewrite slideshow_finish.
    assert (Hidb : idb FL !! SLIDESHOW_KEY = None).
    { subst FL. unfold flushed, started. cbn [scribe idb]. apply lookup_delete_eq. }
    assert (Hurls : objectURLs (on_page enable_inputs (finish message FL)) =
                    objectURLs (on_page (set_actions_hidden false) FL)).
    { change (objectURLs (on_page ?f ?x)) with (objectURLs x).
      by rewrite objectURLs_finish. }
    revert Hurls. unfold finish. case_bool_decide as Hlen.
    2:{ intros _ Hrec. by rewrite Hidb in Hrec. }
    intros Hurls Hrec. split; [done|]. split; [done|].
    set (W := on_page (set_actions_hidden false) FL) in *.
    unfold saved_world in Hrec.
    change (slideshow (page W)) with (slideshow (page FL)) in *.
    destruct (bool_decide (List.length (slide_elements (slideshow (page FL))) ≤ 1)).
    { change (idb FL !! SLIDESHOW_KEY = Some rec) in Hrec. by rewrite Hidb in Hrec. }
    destruct (encode_slides W (slide_elements (slideshow (page FL))))
      as [saved|] eqn:Eenc.
    2:{ change (idb FL !! SLIDESHOW_KEY = Some rec) in Hrec. by rewrite Hidb in Hrec. }
    destruct (encode_slides_inv W _ saved Eenc) as [-> Hst].
    destruct (next_fault W).
    { change (idb FL !! SLIDESHOW_KEY = Some rec) in Hrec. by rewrite Hidb in Hrec. }
    cbn [answered idb] in Hrec. rewrite lookup_insert_eq in Hrec.
    apply (inj Some) in Hrec. rewrite <- Hrec. split.
    - unfold snapshot. f_equal. apply list_fmap_ext. intros. by apply stored_ext.
    - eapply Forall_impl; [exact Hst|]. intros v. by apply fetched_ext. }
  destruct Hmain as (Hok & Hlen & Hr & Hfe).
  split; [done|]. split; [done|]. split; [done|]. split; [done|].
  rewrite Hr. cbn [slides]. rewrite length_fmap. apply slide_elements_length.
Qed.

(** ** Chunking, and restoring again *)

Lemma candidates_run_of (cands : list (list Part)) :
  candidates_run ((λ ps, mkCandidate (Some (mkContent (Some ps)))) <$> cands)
  = (concat cands, true).
Proof.
  induction cands as [|ps cands IH]; [reflexivity|].
  rewrite fmap_cons. cbn [candidates_run content parts]. by rewrite IH.
Qed.

Lemma chunks_run_of (groups : list (list (list Part))) :
  chunks_run (chunks (stream_of groups)) = (concat (concat groups), true).
Proof.
  unfold stream_of. cbn [chunks].
  induction groups as [|cands groups IH]; [reflexivity|].
  rewrite fmap_cons. cbn [chunks_run candidates].
  rewrite candidates_run_of, IH. cbn [fst snd concat]. by rewrite concat_app.
Qed.

(** X14.  How the parts of a stream are grouped into candidates and chunks
    makes no difference: a generation over a completing stream gives the
    same result and the same final state as over the stream that delivers
    the same parts in a single chunk. *)
Theorem X14_chunking_irrelevant
    (message : string) (groups : list (list (list Part))) (w : World) :
  generate message (stream_of groups) w
  = generate message (one_chunk (concat (concat groups))) w.
Proof.
  destruct (next_fault w) eqn:Hf.
  { by rewrite !generate_clear_failed. }
  assert (Hok1 : stream_ok (stream_of groups) = true).
  { unfold stream_ok. by rewrite chunks_run_of. }
  assert (Hp1 : stream_parts (stream_of groups) = concat (concat groups)).
  { unfold stream_parts. by rewrite chunks_run_of. }
  assert (Hok2 : stream_ok (one_chunk (concat (concat groups))) = true) by reflexivity.
  assert (Hp2 : stream_parts (one_chunk (concat (concat groups))) = concat (concat groups)).
  { unfold stream_parts, one_chunk.
    cbn [chunks chunks_run candidates candidates_run content parts fst snd
         default from_option id].
    by rewrite !app_nil_r. }
  rewrite !generate_completed by done. by rewrite Hp1, Hp2.
Qed.

Lemma restored_as_same w1 w2 sd a b :
  restored_as (objectURLs w1) sd a →
  restored_as (objectURLs w2) sd b →
  question_slide a = question_slide b
  ∧ caption_innerHTML a = caption_innerHTML b
  ∧ image_blob w1 a = image_blob w2 b.
Proof.
  intros (Hq1 & Hc1 & Hi1) (Hq2 & Hc2 & Hi2).
  split; [congruence|]. split; [congruence|]. unfold image_blob.
  destruct (imageBlob sd) as [|blob|]; [| |done].
  - by rewrite Hi1, Hi2.
  - destruct Hi1 as (id1 & -> & Hid1). destruct Hi2 as (id2 & -> & Hid2).
    cbn. by rewrite Hid1, Hid2.
Qed.

(** X15.  A restored session can be restored again: after a successful
    restore the snapshot is still stored, and a restore in a further new
    document succeeds and leaves the store as it was.  The two documents
    show the same slides, in the same order, each with the same role,
    caption and image bytes, and agree on everything else on the page; but
    every image of the second document has an object URL that the first
    did not use. *)
Theorem X15_restore_repeatable (w : World) (p0 : Page) (saved : SavedSlideshow) :
  Forall (λ b, b = false) (idb_faults w) →
  idb w !! SLIDESHOW_KEY = Some saved →
  existsb is_junk (slides saved) = false →
  let r1 := loadSlideshowFromStorage (reload p0 w) in
  let r2 := loadSlideshowFromStorage (reload p0 r1.2) in
  r1.1 = inr tt
  ∧ idb r1.2 !! SLIDESHOW_KEY = Some saved
  ∧ r2.1 = inr tt
  ∧ idb r2.2 = idb w
  ∧ Forall2
      (λ a b, question_slide a = question_slide b
              ∧ caption_innerHTML a = caption_innerHTML b
              ∧ image_blob r1.2 a = image_blob r2.2 b)
      (slideshow (page r1.2)) (slideshow (page r2.2))
  ∧ set_slideshow [] false (page r2.2) = set_slideshow [] false (page r1.2)
  ∧ Forall (λ id, id ∉ object_ids (slideshow (page r1.2)))
      (object_ids (slideshow (page r2.2))).
Proof.
  intros Hfaults Hs Hj r1 r2.
  assert (H1 : next_fault w = false) by by apply all_false_next.
  assert (H2 : default false (head (tail (idb_faults w))) = false).
  { destruct (idb_faults w) as [|b0 [|b1 f]]; [done..|].
    inversion Hfaults as [|? ? _ Hrest]. by inversion Hrest. }
  assert (Hout1 : load_outcome (reload p0 w) = Restorable saved).
  { unfold load_outcome.
    change (next_fault (reload p0 w)) with (next_fault w).
    change (idb (reload p0 w)) with (idb w). by rewrite H1, Hs, Hj. }
  assert (Hr1 : r1 = (inr tt,
                      on_page (set_actions_hidden false)
                        (on_page (λ p, set_slideshow (slideshow p) false p)
                           (rebuilt saved (reload p0 w))))).
  { subst r1. by rewrite load_run, Hout1. }
  assert (Hout2 : load_outcome (reload p0 r1.2) = Restorable saved).
  { rewrite Hr1. unfold load_outcome.
    change (next_fault (reload p0 (?x, on_page ?f (on_page ?g (rebuilt saved (reload p0 w)))).2))
      with (default false (head (tail (idb_faults w)))).
    change (idb (reload p0 (?x, on_page ?f (on_page ?g (rebuilt saved (reload p0 w)))).2))
      with (idb w).
    by rewrite H2, Hs, Hj. }
  assert (Hr2 : r2 = (inr tt,
                      on_page (set_actions_hidden false)
                        (on_page (λ p, set_slideshow (slideshow p) false p)
                           (rebuilt saved (reload p0 r1.2))))).
  { subst r2. by rewrite load_run, Hout2. }
  set (ratio1 := or_else (ratio saved) "1-1").
  set (issued1 := issuedURLs w).
  set (issued2 := restored_issued (slides saved) ∅ issued1).
  assert (Es1 : slideshow (page r1.2) = (restored ratio1 (slides saved) ∅ issued1).1.1)
    by by rewrite Hr1.
  assert (Eu1 : objectURLs r1.2 = (restored ratio1 (slides saved) ∅ issued1).1.2)
    by by rewrite Hr1.
  assert (Es2 : slideshow (page r2.2) = (restored ratio1 (slides saved) ∅ issued2).1.1).
  { rewrite Hr2, Hr1. reflexivity. }
  assert (Eu2 : objectURLs r2.2 = (restored ratio1 (slides saved) ∅ issued2).1.2).
  { rewrite Hr2, Hr1. reflexivity. }
  destruct (restored_spec ratio1 (slides saved) ∅ issued1 Hj) as [_ Hall1].
  destruct (restored_spec ratio1 (slides saved) ∅ issued2 Hj) as [_ Hall2].
  specialize (Hall1 _ (reflexivity _)). specialize (Hall2 _ (reflexivity _)).
  rewrite <- Es1, <- Eu1 in Hall1. rewrite <- Es2, <- Eu2 in Hall2.
  split; [by rewrite Hr1|]. split; [by rewrite Hr1|].
  split; [by rewrite Hr2|]. split; [by rewrite Hr2, Hr1|].
  split; [|split].
  - eapply Forall2_trans; [|apply Forall2_flip; exact Hall1|exact Hall2].
    intros a sd b Ha Hb. by eapply restored_as_same.
  - rewrite Hr2, Hr1. reflexivity.
  - rewrite Es1, Es2.
    destruct (restored_ids ratio1 (slides saved) ∅ issued2) as [_ Hnew].
    destruct (restored_issued_spec ratio1 (slides saved) ∅ issued1) as [_ Hold].
    fold issued2 in Hold. rewrite Forall_forall in Hnew, Hold.
    apply Forall_forall. intros id Hid Hin.
    destruct (Hnew id Hid) as [_ Hfresh]. by apply Hfresh, Hold.
Qed.

(** ** From a generation to the restore in a new document *)

Lemma generate_stores message s w :
  next_fault w = false →
  default false (head (tail (idb_faults w))) = false →
  stream_ok s = true →
  1 < List.length (slideshow (page (generate message s w).2)) →
  Forall (fetched (generate message s w).2)
    (slide_elements (slideshow (page (generate message s w).2))) →
  idb (generate message s w).2 =
    <[SLIDESHOW_KEY :=
        mkSavedSlideshow message (selectedTheme (page w)) (selectedRatio (page w))
          (selectedColorStyle (page w))
          (stored (generate message s w).2
             <$> slide_elements (slideshow (page (generate message s w).2)))]>
      (delete SLIDESHOW_KEY (idb w))
  ∧ idb_faults (generate message s w).2 = tail (tail (idb_faults w)).
Proof.
  intros Hf Hf2 Hok. rewrite generate_completed by done. cbn [snd].
  fold (flushed message s w). set (FL := flushed message s w).
  change (slideshow (page (on_page enable_inputs ?x))) with (slideshow (page x)).
  change (idb (on_page enable_inputs ?x)) with (idb x).
  change (idb_faults (on_page enable_inputs ?x)) with (idb_faults x).
  rewrite slideshow_finish. intros Hlen Hst.
  set (W := on_page (set_actions_hidden false) FL).
  assert (HstW : Forall (fetched W) (slide_elements (slideshow (page W)))).
  { eapply Forall_impl; [exact Hst|]. intros v. apply fetched_ext.
    change (objectURLs (on_page enable_inputs ?x)) with (objectURLs x).
    by rewrite objectURLs_finish. }
  assert (Hstored : stored (on_page enable_inputs (finish message FL))
                    <$> slide_elements (slideshow (page FL))
                    = stored W <$> slide_elements (slideshow (page W))).
  { apply list_fmap_ext. intros _ v _. apply stored_ext.
    change (objectURLs (on_page enable_inputs ?x)) with (objectURLs x).
    by rewrite objectURLs_finish. }
  rewrite Hstored. unfold finish. rewrite bool_decide_eq_true_2 by exact Hlen.
  fold W. unfold saved_world.
  change (slideshow (page W)) with (slideshow (page FL)) in *.
  pose proof (slide_elements_length (slideshow (page FL))) as Hel.
  rewrite bool_decide_eq_false_2 by lia.
  rewrite (encode_fetched W _ HstW).
  change (next_fault W) with (default false (head (tail (idb_faults w)))).
  rewrite Hf2. split; reflexivity.
Qed.

(** X16.  A generation survives a reload.  When no database request is
    rejected, the stream completes with at least one answer slide, the
    image of every slide resolves and no caption holds a slide or an image
    of its own, a restore in a new document shows what the generation
    showed: the same question, the three settings, and the slides in the
    same number and order, each with the same role and image bytes, and as
    caption the markup of the generated caption as the browser reads it
    back. *)
Theorem X16_generation_survives_reload
    (message : string) (s : Stream) (w : World) (p0 : Page) :
  Forall (λ b, b = false) (idb_faults w) →
  stream_ok s = true →
  1 < List.length (slideshow (page (generate message s w).2)) →
  Forall (storable (generate message s w).2) (slideshow (page (generate message s w).2)) →
  Forall plain_caption (slideshow (page (generate message s w).2)) →
  selectedColorStyle (page w) ≠ "" →
  let w1 := (generate message s w).2 in
  let r := loadSlideshowFromStorage (reload p0 w1) in
  r.1 = inr tt
  ∧ modelOutput (page r.2) = modelOutput p0 ++ [marked_parse message]
  ∧ selectedTheme (page r.2) = selectedTheme (page w)
  ∧ selectedRatio (page r.2) = selectedRatio (page w)
  ∧ selectedColorStyle (page r.2) = selectedColorStyle (page w)
  ∧ Forall2
      (λ a b, question_slide a = question_slide b
              ∧ caption_innerHTML b = inner_html (caption_innerHTML a)
              ∧ image_blob w1 a = image_blob r.2 b)
      (slideshow (page w1)) (slideshow (page r.2)).
Proof.
  intros Hfaults Hok Hlen Hst Hpl Hcolor w1 r.
  assert (H1 : next_fault w = false) by by apply all_false_next.
  assert (H2 : default false (head (tail (idb_faults w))) = false).
  { destruct (idb_faults w) as [|b0 [|b1 f]]; [done..|].
    inversion Hfaults as [|? ? _ Hrest]. by inversion Hrest. }
  assert (H3 : default false (head (tail (tail (idb_faults w)))) = false).
  { destruct (idb_faults w) as [|b0 [|b1 [|b2 f]]]; [done..|].
    inversion Hfaults as [|? ? _ Hrest]. inversion Hrest as [|? ? _ Hrest'].
    by inversion Hrest'. }
  assert (Hfe : Forall (fetched (generate message s w).2)
                  (slide_elements (slideshow (page (generate message s w).2)))).
  { rewrite slide_elements_plain by done. apply Forall_fmap.
    rewrite Forall_forall in Hst, Hpl. apply Forall_forall. intros sl Hsl.
    apply storable_fetched; auto. }
  destruct (generate_stores message s w H1 H2 Hok Hlen Hfe) as [Hidb Hfl].
  fold w1 in Hidb, Hfl, Hlen, Hst, Hpl.
  set (rec := mkSavedSlideshow message (selectedTheme (page w)) (selectedRatio (page w))
                (selectedColorStyle (page w))
                (stored w1 <$> slide_elements (slideshow (page w1)))) in *.
  assert (Hout : load_outcome (reload p0 w1) = Restorable rec).
  { unfold load_outcome.
    change (next_fault (reload p0 w1)) with (default false (head (idb_faults w1))).
    change (idb (reload p0 w1)) with (idb w1).
    rewrite Hfl, H3, Hidb, lookup_insert_eq.
    change (slides rec) with (stored w1 <$> slide_elements (slideshow (page w1))).
    by rewrite stored_no_junk. }
  subst r. rewrite load_run, Hout. cbn [fst snd].
  split; [done|]. split; [done|]. split; [done|]. split; [done|].
  split.
  { cbn. unfold or_else. apply truthy_true in Hcolor. by rewrite Hcolor. }
  change (slideshow (page (on_page ?f (on_page ?g (rebuilt rec (reload p0 w1))))))
    with (restored (or_else (ratio rec) "1-1") (slides rec) ∅ (issuedURLs w1)).1.1.
  set (out := restored (or_else (ratio rec) "1-1") (slides rec) ∅ (issuedURLs w1)).
  destruct (restored_spec (or_else (ratio rec) "1-1") (slides rec) ∅ (issuedURLs w1)
              (stored_no_junk w1 _)) as [_ Hall].
  specialize (Hall out.1.2 (reflexivity _)). fold out in Hall.
  change (slides rec) with (stored w1 <$> slide_elements (slideshow (page w1))) in Hall.
  rewrite slide_elements_plain, <- list_fmap_compose, Forall2_fmap_l in Hall by done.
  exact (restored_same w1 out.1.2 _ _ Hst Hpl Hall).
Qed.

End Proofs.

(** ** Runs in the concrete browser *)

Local Existing Instance SampleBrowser.browser.

Lemma C2_slide_count_witness :
  let fs := [Text "a"; Image png_hello; Image png_hi] in
  let s := one_chunk (part_of <$> fs) in
  let calls := addSlide_calls (events_of (segmenter s) SampleBrowser.world0) in
  stream_ok s = true
  ∧ stream_parts s = part_of <$> fs
  ∧ call_shape <$> calls =
      SegmenterSpec.as_call <$> (SegmenterSpec.completed fs ++ SegmenterSpec.trailing fs)
  ∧ List.length calls = 2.
Proof.
  intros fs s calls.
  assert (Hok : stream_ok s = true) by reflexivity.
  assert (Hparts : stream_parts s = part_of <$> fs) by reflexivity.
  split; [exact Hok|]. split; [exact Hparts|].
  destruct (C2_slide_count fs s SampleBrowser.world0 Hok Hparts) as (Hc & Hl & _).
  split; [exact Hc|]. exact Hl.
Defined.

Lemma C4_order_preserving_witness :
  let groups := [(true, "a", png_hello); (false, "b", png_hi)] in
  Forall (λ g : bool * string * InlineData, g.1.2 ≠ "") groups
  ∧ addSlide_calls
      (events_of (segmenter (one_chunk (part_of <$> (groups ≫= pair_fragments))))
         SampleBrowser.world0)
    = [("a", img_of png_hello); ("b", img_of png_hi)].
Proof.
  intros groups.
  assert (Hg : Forall (λ g : bool * string * InlineData, g.1.2 ≠ "") groups).
  { repeat constructor; discriminate. }
  split; [exact Hg|].
  exact (proj1 (proj2 (C4_order_preserving groups png_hello png_hi SampleBrowser.world0 Hg))).
Defined.



Lemma C9_unrecognized_part_skipped_witness :
  let part := mkPart None None in
  let before := [part_of (Text "a")] in
  let after := [part_of (Image png_hi)] in
  let w := SampleBrowser.world0 in
  unrecognized part = true
  ∧ generate_part part ("a", None) w =
    (inr ("a", None), scribe [EvPart part; EvConsoleLog "no data"] w)
  ∧ addSlide_calls (events_of (for_of (before ++ part :: after) generate_part ("", None)) w)
    = addSlide_calls (events_of (for_of (before ++ after) generate_part ("", None)) w).
Proof.
  intros part before after w.
  assert (Hun : unrecognized part = true) by reflexivity.
  split; [exact Hun|].
  destruct (C9_unrecognized_part_skipped part before after w Hun) as (Hstep & _ & _ & _ & Hcalls).
  split; [exact Hstep | exact Hcalls].
Defined.

(** The claim C6 as stated fails: the stream completes, the slideshow holds
    the question and one answer, yet [saveDataToDB] is not called, because
    the image payload does not decode and the save gives up. *)
Lemma C6_counterexample :
  let s := one_chunk [part_of (Text "a"); part_of (Image png_broken)] in
  let r := generate "why" s SampleBrowser.world0 in
  r.1 = inr tt
  ∧ stream_ok s = true
  ∧ List.length (slideshow (page r.2)) = 2
  ∧ put_invoked (events_of (generate "why" s) SampleBrowser.world0) = false.
Proof. vm_compute. repeat split. Qed.

(** The claim C7 as stated fails: when the delete of the stored snapshot is
    rejected, the generation ends there; no save has happened, and a get
    still returns the snapshot of the previous answer. *)
Lemma C7_counterexample :
  let old := mkSavedSlideshow "old" "cats" "1-1" "bw" [] in
  let w := mkWorld SampleBrowser.page0 {[ SLIDESHOW_KEY := old ]} [true] ∅ ∅ [] in
  let r := generate "why" (one_chunk [part_of (Text "a"); part_of (Image png_hi)]) w in
  trace r.2 = [EvDbDelete SLIDESHOW_KEY false]
  ∧ put_invoked (trace r.2) = false
  ∧ (loadDataFromDB SLIDESHOW_KEY r.2).1 = inr (Some old).
Proof. vm_compute. repeat split. Qed.

(** The claim C8 as stated fails: with no record stored the restore ends
    without clearing the store. *)
Lemma C8_counterexample :
  let r := loadSlideshowFromStorage SampleBrowser.world0 in
  idb SampleBrowser.world0 !! SLIDESHOW_KEY = None
  ∧ r.1 = inr tt
  ∧ count is_delete (events_of loadSlideshowFromStorage SampleBrowser.world0) = 0.
Proof. vm_compute. repeat split. Qed.

(** A restore that fails in the middle of the rebuild: the second stored
    slide has an image that is not a blob.  The store is cleared once and
    the restore returns normally, but the settings of the record and the
    slides rebuilt so far stay on the page. *)
Example restore_undecodable_run :
  let rec := mkSavedSlideshow "why" "robots" "16-9" "vibrant"
               [mkSavedSlide true "You asked:<br><strong>why</strong>" BlobNull;
                mkSavedSlide false "<p>a</p>" BlobJunk;
                mkSavedSlide false "<p>b</p>" BlobNull] in
  let w := mkWorld SampleBrowser.page0 {[ SLIDESHOW_KEY := rec ]} [] ∅ ∅ [] in
  let r := loadSlideshowFromStorage w in
  r.1 = inr tt
  ∧ count is_delete (events_of loadSlideshowFromStorage w) = 1
  ∧ idb r.2 !! SLIDESHOW_KEY = None
  ∧ selectedTheme (page r.2) = "robots"
  ∧ List.length (slideshow (page r.2)) = 2
  ∧ actionsContainer_hidden (page r.2) = true.
Proof. vm_compute. repeat split. Qed.

(** A generation whose initial delete is rejected: nothing else runs and the
    stored snapshot is still there. *)
Example generate_clear_rejected_run :
  let rec := mkSavedSlideshow "old" "cats" "1-1" "bw" [] in
  let w := mkWorld SampleBrowser.page0 {[ SLIDESHOW_KEY := rec ]} [true] ∅ ∅ [] in
  let r := generate "why" (one_chunk [part_of (Text "a"); part_of (Image png_hi)]) w in
  r.1 = inl (DBError "delete failed")
  ∧ trace r.2 = [EvDbDelete SLIDESHOW_KEY false]
  ∧ idb r.2 !! SLIDESHOW_KEY = Some rec
  ∧ page r.2 = SampleBrowser.page0.
Proof. vm_compute. repeat split. Qed.

(** The save reads the document, not what the code assigned: the caption
    of the question slide is stored as the browser reads it back, and an
    image inside the question is fetched like the image of a slide; when it
    cannot be fetched, nothing is stored. *)
Example save_reads_document_run :
  let s := one_chunk [part_of (Text "a"); part_of (Image png_hi)] in
  let w1 := (generate "cats & dogs" s SampleBrowser.world0).2 in
  let w2 := (generate "<img src='data:image/png;base64,!!!'>" s SampleBrowser.world0).2 in
  (caption_innerHTML <$> head (slideshow (page w1))) =
    Some "You asked:<br><strong>cats & dogs</strong>"
  ∧ ((λ rec, text <$> head (slides rec)) <$> idb w1 !! SLIDESHOW_KEY) =
    Some (Some "You asked:<br><strong>cats &amp; dogs</strong>")
  ∧ List.length (slideshow (page w2)) = 2
  ∧ put_invoked (trace w2) = false
  ∧ idb w2 !! SLIDESHOW_KEY = None.
Proof. vm_compute. repeat split. Qed.

(** A whole session: generate two slides, reload, restore. *)
Example generate_reload_restore_run :
  let s := one_chunk (part_of <$> [Text "a"; Image png_hello; Text "b"; Image png_hi]) in
  let w1 := (generate "why" s SampleBrowser.world0).2 in
  let r := loadSlideshowFromStorage (reload SampleBrowser.page0 w1) in
  put_invoked (trace w1) = true
  ∧ r.1 = inr tt
  ∧ (caption_innerHTML <$> slideshow (page r.2)) =
    ["You asked:<br><strong>why</strong>"; "<p>a</p>"; "<p>b</p>"]
  ∧ (image_blob r.2 <$> slideshow (page r.2)) =
    (image_blob w1 <$> slideshow (page w1)).
Proof. vm_compute. repeat split. Qed.

Lemma X3_wrapText_breaks_forced_witness :
  let lines := wrapText char_width "aa bb cc" (QArith_base.Qmake 6 1) in
  lines !! 0 = Some "aa bb "
  ∧ lines !! 1 = Some "cc "
  ∧ first_word "cc " = "cc"
  ∧ QArith_base.Qlt (QArith_base.Qmake 6 1)
      (char_width (("aa bb " +:+ first_word "cc ") +:+ " ")).
Proof.
  intros lines.
  assert (H0 : lines !! 0 = Some "aa bb ") by reflexivity.
  assert (H1 : lines !! 1 = Some "cc ") by reflexivity.
  split; [exact H0|]. split; [exact H1|]. split; [reflexivity|].
  exact (proj2 (proj2 (X3_wrapText_breaks_forced char_width "aa bb cc"
                         (QArith_base.Qmake 6 1) 0 "aa bb " "cc " H0 H1))).
Defined.


Lemma X7_text_conserved_witness :
  let s := one_chunk [part_of (Text "a"); part_of (Text "b"); part_of (Image png_hi);
                      part_of (Text "c")] in
  stream_ok s = true
  ∧ ∃ pending,
      (generate_stream s ("", None) SampleBrowser.world0).1 = inr pending
      ∧ concat_strings
          (fst <$> addSlide_calls (events_of (segmenter s) SampleBrowser.world0))
        +:+ pending.1 = "abc"
      ∧ match pending.2 with Some _ => pending.1 = "" | None => True end.
Proof.
  intros s.
  assert (Hok : stream_ok s = true) by reflexivity.
  split; [exact Hok|].
  exact (X7_text_conserved s SampleBrowser.world0 Hok).
Defined.

Lemma X11_restore_fresh_urls_witness :
  let blob := mkBlob [Byte.x68; Byte.x69] "image/png" in
  let saved := mkSavedSlideshow "why" "cats" "1-1" "bw"
                 [mkSavedSlide true "Q" BlobNull;
                  mkSavedSlide false "a" (BlobOk blob);
                  mkSavedSlide false "b" (BlobOk blob)] in
  let w := mkWorld SampleBrowser.page0 {[ SLIDESHOW_KEY := saved ]} [] ∅ ∅ [] in
  let r := loadSlideshowFromStorage w in
  next_fault w = false
  ∧ idb w !! SLIDESHOW_KEY = Some saved
  ∧ existsb is_junk (slides saved) = false
  ∧ r.1 = inr tt
  ∧ NoDup (object_ids (slideshow (page r.2)))
  ∧ List.length (object_ids (slideshow (page r.2))) = 2.
Proof.
  intros blob saved w r.
  assert (H1 : next_fault w = false) by reflexivity.
  assert (H2 : idb w !! SLIDESHOW_KEY = Some saved) by (vm_compute; reflexivity).
  assert (H3 : existsb is_junk (slides saved) = false) by reflexivity.
  split; [exact H1|]. split; [exact H2|]. split; [exact H3|].
  destruct (X11_restore_fresh_urls w saved H1 H2 H3) as (Ha & Hb & _).
  split; [exact Ha|]. split; [exact Hb|]. vm_compute. reflexivity.
Defined.

Lemma X12_menus_agree_witness :
  let w := on_page (set_className "app-container theme-cats") SampleBrowser.world0 in
  menus_agree (page w)
  ∧ menus_agree (page (click_color (Some "vibrant") w).2)
  ∧ selectedColorStyle (page (click_color (Some "vibrant") w).2) = "vibrant".
Proof.
  intros w.
  assert (H0 : menus_agree (page w)).
  { repeat split; repeat constructor. }
  split; [exact H0|]. split; [|reflexivity].
  exact (proj1 (proj2 (proj2 (X12_menus_agree w (Some "vibrant") "why" (one_chunk []) H0)))).
Defined.

Lemma X13_downloads_after_generation_witness :
  let s := one_chunk [part_of (Text "a"); part_of (Image png_hello)] in
  let q := "<img src='data:image/png;base64,aGk='>" in
  next_fault SampleBrowser.world0 = false
  ∧ download_click (page (generate q s SampleBrowser.world0).2) =
    [(src (img_of png_hi), "explanation-slide-1.png");
     (src (img_of png_hello), "explanation-slide-2.png")]
  ∧ List.length (addSlide_calls (events_of (generate q s) SampleBrowser.world0)) = 1.
Proof.
  intros s q.
  assert (Hf : next_fault SampleBrowser.world0 = false) by reflexivity.
  split; [exact Hf|].
  pose proof (X13_downloads_after_generation q s SampleBrowser.world0 Hf) as HX.
  cbv zeta in HX. destruct HX as (E & _).
  split; [|vm_compute; reflexivity].
  rewrite E. vm_compute. reflexivity.
Defined.

Lemma X10_snapshot_of_generation_witness :
  let s := one_chunk [part_of (Text "a"); part_of (Image png_hi)] in
  let w' := (generate "why" s SampleBrowser.world0).2 in
  let rec := mkSavedSlideshow "why" "cats" "1-1" "bw"
               [mkSavedSlide true "You asked:<br><strong>why</strong>" BlobNull;
                mkSavedSlide false "<p>a</p>"
                  (BlobOk (mkBlob [Byte.x68; Byte.x69] "image/png"))] in
  next_fault SampleBrowser.world0 = false
  ∧ idb w' !! SLIDESHOW_KEY = Some rec
  ∧ stream_ok s = true
  ∧ rec = mkSavedSlideshow "why" "cats" "1-1" "bw"
            (stored w' <$> slide_elements (slideshow (page w'))).
Proof.
  intros s w' rec.
  assert (Hf : next_fault SampleBrowser.world0 = false) by reflexivity.
  assert (Hrec : idb w' !! SLIDESHOW_KEY = Some rec) by (vm_compute; reflexivity).
  split; [exact Hf|]. split; [exact Hrec|].
  destruct (X10_snapshot_of_generation "why" s SampleBrowser.world0 rec Hf Hrec)
    as (Hok & _ & Heq & _).
  split; [exact Hok | exact Heq].
Defined.

Lemma X15_restore_repeatable_witness :
  let saved := mkSavedSlideshow "why" "robots" "16-9" "vibrant"
                 [mkSavedSlide true "Q" BlobNull;
                  mkSavedSlide false "a" (BlobOk (mkBlob [Byte.x68] "image/png"))] in
  let w := mkWorld SampleBrowser.page0 {[ SLIDESHOW_KEY := saved ]} [] ∅ ∅ [] in
  let r1 := loadSlideshowFromStorage (reload SampleBrowser.page0 w) in
  let r2 := loadSlideshowFromStorage (reload SampleBrowser.page0 r1.2) in
  Forall (λ b, b = false) (idb_faults w)
  ∧ idb w !! SLIDESHOW_KEY = Some saved
  ∧ existsb is_junk (slides saved) = false
  ∧ r2.1 = inr tt
  ∧ object_ids (slideshow (page r1.2)) = [0]
  ∧ object_ids (slideshow (page r2.2)) = [1]
  ∧ Forall (λ id, id ∉ object_ids (slideshow (page r1.2)))
      (object_ids (slideshow (page r2.2))).
Proof.
  intros saved w r1 r2.
  assert (H1 : Forall (λ b, b = false) (idb_faults w)) by constructor.
  assert (H2 : idb w !! SLIDESHOW_KEY = Some saved) by (vm_compute; reflexivity).
  assert (H3 : existsb is_junk (slides saved) = false) by reflexivity.
  split; [exact H1|]. split; [exact H2|]. split; [exact H3|].
  destruct (X15_restore_repeatable w SampleBrowser.page0 saved H1 H2 H3)
    as (_ & _ & Ha & _ & _ & _ & Hb).
  split; [exact Ha|]. split; [vm_compute; reflexivity|].
  split; [vm_compute; reflexivity | exact Hb].
Defined.

Lemma X16_generation_survives_reload_witness :
  let r := loadSlideshowFromStorage
             (reload SampleBrowser.page0
                (generate "why" two_pairs SampleBrowser.world0).2) in
  Forall (λ b, b = false) (idb_faults SampleBrowser.world0)
  ∧ stream_ok two_pairs = true
  ∧ 1 < List.length
          (slideshow (page (generate "why" two_pairs SampleBrowser.world0).2))
  ∧ Forall (storable (generate "why" two_pairs SampleBrowser.world0).2)
      (slideshow (page (generate "why" two_pairs SampleBrowser.world0).2))
  ∧ Forall plain_caption
      (slideshow (page (generate "why" two_pairs SampleBrowser.world0).2))
  ∧ selectedColorStyle (page SampleBrowser.world0) ≠ ""
  ∧ r.1 = inr tt
  ∧ modelOutput (page r.2) = ["<p>why</p>"]
  ∧ Forall2
      (λ a b, question_slide a = question_slide b
              ∧ caption_innerHTML b = inner_html (caption_innerHTML a)
              ∧ image_blob (generate "why" two_pairs SampleBrowser.world0).2 a
                = image_blob r.2 b)
      (slideshow (page (generate "why" two_pairs SampleBrowser.world0).2))
      (slideshow (page r.2)).
Proof.
  assert (H1 : Forall (λ b, b = false) (idb_faults SampleBrowser.world0))
    by constructor.
  assert (H2 : stream_ok two_pairs = true) by reflexivity.
  assert (Hs : slideshow
                 (page (generate "why" two_pairs SampleBrowser.world0).2) =
                [mkSlideEl true "1-1" "You asked:<br><strong>why</strong>" None;
                 mkSlideEl false "1-1" "<p>a</p>" (Some (img_of png_hello));
                 mkSlideEl false "1-1" "<p>b</p>" (Some (img_of png_hi))])
    by (vm_compute; reflexivity).
  assert (H3 : 1 < List.length
                     (slideshow
                        (page (generate "why" two_pairs SampleBrowser.world0).2)))
    by (rewrite Hs; simpl; lia).
  assert (H4 : Forall (storable (generate "why" two_pairs SampleBrowser.world0).2)
                 (slideshow
                    (page (generate "why" two_pairs SampleBrowser.world0).2))).
  { rewrite Hs.
    constructor; [exact I|].
    constructor; [split; [discriminate | vm_compute; by eexists]|].
    constructor; [split; [discriminate | vm_compute; by eexists]|].
    constructor. }
  assert (Hp : Forall plain_caption
                 (slideshow
                    (page (generate "why" two_pairs SampleBrowser.world0).2))).
  { rewrite Hs.
    constructor; [split; [reflexivity | intros _; reflexivity]|].
    constructor; [split; [reflexivity | discriminate]|].
    constructor; [split; [reflexivity | discriminate]|].
    constructor. }
  assert (H5 : selectedColorStyle (page SampleBrowser.world0) ≠ "")
    by discriminate.
  pose proof (X16_generation_survives_reload "why" two_pairs SampleBrowser.world0
                SampleBrowser.page0 H1 H2 H3 H4 Hp H5) as (Ha & Hb & _ & _ & _ & Hc).
  intros r.
  split; [exact H1|]. split; [exact H2|]. split; [exact H3|]. split; [exact H4|].
  split; [exact Hp|]. split; [exact H5|]. split; [exact Ha|].
  split; [exact Hb | exact Hc].
Defined.
